(** * generative-city-map: the growth core of [src/js/generator.js]

    A shallow embedding of the seeded generator [randomFromSeed], the
    collision detector [buildCollisionDetector] and the growth model
    [buildModel], followed by the properties the specification states
    about them.

    JavaScript numbers are kept behind the interface [JSNum]: every
    definition of the model and every structural theorem is stated for an
    arbitrary interpretation of the arithmetic.  Two interpretations are
    given: [Float64] (IEEE binary64, what the program runs on) and
    [Exact] (rational arithmetic without rounding). *)

From Stdlib Require Import ZArith QArith Qminmax Qround Floats Uint63 Lia Lqa Bool.
From stdpp Require Import base option list.

Set Default Proof Using "Type".
Local Open Scope Z_scope.

(** ** JavaScript numbers *)

(** The operations on numbers that the source uses.  [truthy] is
    ToBoolean on a number (used by [b && a] and [b || a]); comparisons
    are the boolean results of [<] and [<=], so that [a > b] is [ltb b a]
    and [a >= b] is [leb b a]. *)
Class JSNum := {
  num : Type;
  of_Z : Z -> num;
  add : num -> num -> num;
  sub : num -> num -> num;
  mul : num -> num -> num;
  div : num -> num -> num;
  ltb : num -> num -> bool;
  leb : num -> num -> bool;
  Math_max : num -> num -> num;
  Math_min : num -> num -> num;
  truthy : num -> bool
}.

(** [Math.sin], [Math.cos] and [Math.PI]. *)
Class JSMath (N : JSNum) := {
  Math_sin : num -> num;
  Math_cos : num -> num;
  Math_PI : num
}.

(** *** IEEE binary64 *)

Module F64.
(** The integer literals of the program, all far below 2^53. *)
Definition of_Z (z : Z) : float :=
  match z with
  | Zneg p => PrimFloat.opp (PrimFloat.of_uint63 (Uint63.of_Z (Zpos p)))
  | _ => PrimFloat.of_uint63 (Uint63.of_Z z)
  end.

Definition is_nan (a : float) : bool := negb (PrimFloat.eqb a a).

(** [-0] is the zero whose reciprocal is negative. *)
Definition is_neg_zero (a : float) : bool :=
  PrimFloat.eqb a PrimFloat.zero && PrimFloat.ltb (PrimFloat.div PrimFloat.one a) PrimFloat.zero.

Definition max (a b : float) : float :=
  if is_nan a || is_nan b then PrimFloat.nan
  else if PrimFloat.ltb a b then b
  else if PrimFloat.ltb b a then a
  else if is_neg_zero a then b else a.

Definition min (a b : float) : float :=
  if is_nan a || is_nan b then PrimFloat.nan
  else if PrimFloat.ltb a b then a
  else if PrimFloat.ltb b a then b
  else if is_neg_zero a then a else b.

Definition truthy (a : float) : bool :=
  negb (is_nan a || PrimFloat.eqb a PrimFloat.zero).

(** The language leaves [Math.sin] and [Math.cos] implementation
    approximated.  This interpretation fixes one approximation, the
    Taylor polynomial with [n] terms after the first. *)
Fixpoint taylor (n : nat) (k : Z) (term acc x2 : float) : float :=
  match n with
  | O => acc
  | S n' =>
      let term' :=
        PrimFloat.div (PrimFloat.mul (PrimFloat.opp term) x2) (of_Z ((k + 1) * (k + 2))) in
      taylor n' (k + 2) term' (PrimFloat.add acc term') x2
  end.

Definition sin (a : float) : float := taylor 40 1 a a (PrimFloat.mul a a).
Definition cos (a : float) : float :=
  taylor 40 0 PrimFloat.one PrimFloat.one (PrimFloat.mul a a).

(** The double nearest to pi. *)
Definition PI : float := 0x1.921fb54442d18p+1%float.
End F64.

#[export] Instance Float64 : JSNum := {|
  num := float;
  of_Z := F64.of_Z;
  add := PrimFloat.add;
  sub := PrimFloat.sub;
  mul := PrimFloat.mul;
  div := PrimFloat.div;
  ltb := PrimFloat.ltb;
  leb := PrimFloat.leb;
  Math_max := F64.max;
  Math_min := F64.min;
  truthy := F64.truthy
|}.

#[export] Instance Float64Math : JSMath Float64 := {|
  Math_sin := F64.sin;
  Math_cos := F64.cos;
  Math_PI := F64.PI
|}.

(** *** Exact rational arithmetic *)

Module QExact.
Definition ltb (a b : Q) : bool := negb (Qle_bool b a).
Definition truthy (a : Q) : bool := negb (Qeq_bool a 0%Q).
End QExact.

Definition Exact : JSNum := {|
  num := Q;
  of_Z := inject_Z;
  add := Qplus;
  sub := Qminus;
  mul := Qmult;
  div := Qdiv;
  ltb := QExact.ltb;
  leb := Qle_bool;
  Math_max := Qmax;
  Math_min := Qmin;
  truthy := QExact.truthy
|}.

(** ** The seeded generator: [randomFromSeed] *)

(** 32-bit conversions of the language: [ToInt32], [ToUint32], and the
    operators built on them. *)
Definition ToUint32 (z : Z) : Z := z mod 4294967296.
Definition ToInt32 (z : Z) : Z := (z + 2147483648) mod 4294967296 - 2147483648.

(** [a ^ b], [a | b], [a >>> n] and [Math.imul(a, b)]. *)
Definition js_xor (a b : Z) : Z := Z.lxor (ToInt32 a) (ToInt32 b).
Definition js_or (a b : Z) : Z := Z.lor (ToInt32 a) (ToInt32 b).
Definition js_ushr (a n : Z) : Z := Z.shiftr (ToUint32 a) (n mod 32).
Definition Math_imul (a b : Z) : Z := ToInt32 (ToInt32 a * ToInt32 b).

(** [mulberry32]: the closure variable [seed] is advanced and the mixed
    32-bit value is divided by 4294967296.  The variable [seed] is a
    number that only ever grows (it is not reduced to 32 bits, only read
    through [ToInt32] and [ToUint32]); its additions are exact below
    2^53, and it is kept here as an exact integer. *)
Definition mulberry32_step (seed : Z) : Z := seed + 1831565813.

Definition mulberry32_mix (seed' : Z) : Z :=
  let t := seed' in
  let t := Math_imul (js_xor t (js_ushr t 15)) (js_or t 1) in
  let t := js_xor t (t + Math_imul (js_xor t (js_ushr t 7)) (js_or t 61)) in
  js_ushr (js_xor t (js_ushr t 14)) 0.

Definition mulberry32 `{N : JSNum} (seed : Z) : num * Z :=
  let seed' := mulberry32_step seed in
  (div (of_Z (mulberry32_mix seed')) (of_Z 4294967296), seed').

(** [randomFromSeed a b seed] is the call [rnd(a, b)] of the function
    that [randomFromSeed] returns, made when its variable [seed] holds
    [seed]: the value drawn and the new content of the variable.  Both
    arguments are given ([a = 1] and [b = 0] are the defaults). *)
Definition randomFromSeed `{N : JSNum} (a b : num) (seed : Z) : num * Z :=
  let min := if truthy b then a else b in
  let max := if truthy b then b else a in
  let '(m, seed') := mulberry32 seed in
  (add (mul m (sub max min)) min, seed').

(** ** Data model *)

(** What a JavaScript callback of this program returns: nothing, or a
    boolean. *)
Inductive jsval := undefined | boolean (b : bool).

Definition ToBoolean (v : jsval) : bool :=
  match v with undefined => false | boolean b => b end.

Inductive JsError := TypeError | RangeError.

Inductive result (A : Type) := Ok (a : A) | Throw (e : JsError).
Arguments Ok {A} a.
Arguments Throw {A} e.

Module Point.
Record t `{N : JSNum} := mk { x : num; y : num }.
End Point.

(** A line object is identified by where it lives: the index of its seed
    in [seeds] and its index in that seed's [lines].  Both arrays only
    grow at the end, so the pair never changes for a given object. *)
Definition LineRef : Type := nat * nat.

Module Line.
Record t `{N : JSNum} := mk {
  p0 : Point.t;
  p1 : Point.t;
  angle : num;
  generation : nat;
  parent : option LineRef;
  active : bool;
  split : bool;
  expired : bool;
  steps : nat;
  rnd : num
}.

Section Setters.
Context `{N : JSNum}.
Definition set_p1 (p : Point.t) (l : t) : t :=
  mk _ (p0 l) p (angle l) (generation l) (parent l) (active l) (split l) (expired l) (steps l) (rnd l).
Definition set_active (b : bool) (l : t) : t :=
  mk _ (p0 l) (p1 l) (angle l) (generation l) (parent l) b (split l) (expired l) (steps l) (rnd l).
Definition set_split (b : bool) (l : t) : t :=
  mk _ (p0 l) (p1 l) (angle l) (generation l) (parent l) (active l) b (expired l) (steps l) (rnd l).
Definition set_expired (b : bool) (l : t) : t :=
  mk _ (p0 l) (p1 l) (angle l) (generation l) (parent l) (active l) (split l) b (steps l) (rnd l).
Definition set_steps (n : nat) (l : t) : t :=
  mk _ (p0 l) (p1 l) (angle l) (generation l) (parent l) (active l) (split l) (expired l) n (rnd l).
End Setters.
End Line.

(** A line object together with its identity. *)
Definition Obj `{N : JSNum} : Type := LineRef * Line.t.

Module Seed.
Record t `{N : JSNum} := mk { angle : num; lines : list Line.t }.

Definition set_lines `{N : JSNum} (ls : list Line.t) (s : t) : t :=
  mk _ (angle s) ls.
End Seed.

(** The options of the configuration bundle that the growth core reads.
    [seedCount] is integer valued ([buildRandomConfig] rounds it). *)
Record Config `{N : JSNum} := {
  seedCount : Z;
  pBifurcation : num;
  expiryThreshold : num
}.

(** The canvas is not part of [generator.js]; it is a parameter of the
    model: the global [canvas] gives [width] and [height], and
    [view.canvas] gives the viewport test [isVisible]. *)
Record Canvas `{N : JSNum} := {
  width : num;
  height : num;
  isVisible : num -> num -> bool
}.

(** ** The collision detector: [buildCollisionDetector] *)

Inductive Orientation := COLINEAR | CLOCKWISE | ANTICLOCKWISE.

Definition Orientation_eqb (a b : Orientation) : bool :=
  match a, b with
  | COLINEAR, COLINEAR | CLOCKWISE, CLOCKWISE | ANTICLOCKWISE, ANTICLOCKWISE => true
  | _, _ => false
  end.

Definition LineRef_eqb (a b : LineRef) : bool :=
  Nat.eqb a.1 b.1 && Nat.eqb a.2 b.2.

(** [o === r] for an optional reference [o] and an object [r]. *)
Definition is_ref (o : option LineRef) (r : LineRef) : bool :=
  match o with Some p => LineRef_eqb p r | None => false end.

(** [Array.prototype.some] with a callback that may update the variables
    it closes over (the state [V]); the callback receives the element and
    its index. *)
Fixpoint array_some_from {A V : Type} (i : nat) (f : A -> nat -> V -> jsval * V)
    (l : list A) (s : V) : bool * V :=
  match l with
  | [] => (false, s)
  | a :: l' =>
      let '(v, s1) := f a i s in
      if ToBoolean v then (true, s1) else array_some_from (S i) f l' s1
  end.

Definition array_some {A V : Type} := @array_some_from A V 0.

Section Detector.
Context `{N : JSNum}.

(** The traversal handed to the detector: it takes the visitor and the
    variables the visitor closes over. *)
Definition Traversal (V : Type) : Type :=
  (Obj -> Config -> V -> jsval * V) -> V -> jsval * V.

Definition lineOffscreen (canvas : Canvas) (line : Line.t) : bool :=
  negb (isVisible canvas (Point.x (Line.p1 line)) (Point.y (Line.p1 line))).

Definition orientation (p q r : Point.t) : Orientation :=
  let val := sub (mul (sub (Point.y q) (Point.y p)) (sub (Point.x r) (Point.x q)))
                 (mul (sub (Point.x q) (Point.x p)) (sub (Point.y r) (Point.y q))) in
  if ltb (of_Z 0) val then CLOCKWISE
  else if ltb val (of_Z 0) then ANTICLOCKWISE
  else COLINEAR.

Definition onSegment (p q r : Point.t) : bool :=
  leb (Point.x q) (Math_max (Point.x p) (Point.x r)) &&
  leb (Math_min (Point.x p) (Point.x r)) (Point.x q) &&
  leb (Point.y q) (Math_max (Point.y p) (Point.y r)) &&
  leb (Math_min (Point.y p) (Point.y r)) (Point.y q).

Definition linesIntersect (l1 l2 : Line.t) : bool :=
  let o1 := orientation (Line.p0 l1) (Line.p1 l1) (Line.p0 l2) in
  let o2 := orientation (Line.p0 l1) (Line.p1 l1) (Line.p1 l2) in
  let o3 := orientation (Line.p0 l2) (Line.p1 l2) (Line.p0 l1) in
  let o4 := orientation (Line.p0 l2) (Line.p1 l2) (Line.p1 l1) in
  if negb (Orientation_eqb o1 o2) && negb (Orientation_eqb o3 o4) then true
  else if Orientation_eqb o1 COLINEAR && onSegment (Line.p0 l1) (Line.p0 l2) (Line.p1 l1) then true
  else if Orientation_eqb o2 COLINEAR && onSegment (Line.p0 l1) (Line.p1 l2) (Line.p1 l1) then true
  else if Orientation_eqb o3 COLINEAR && onSegment (Line.p0 l2) (Line.p0 l1) (Line.p1 l2) then true
  else if Orientation_eqb o4 COLINEAR && onSegment (Line.p0 l2) (Line.p1 l1) (Line.p1 l2) then true
  else false.

(** The test at the head of the visitor: the visited line is the line
    itself, its parent, or one of its children. *)
Definition adjacent (line1 line2 : Obj) : bool :=
  LineRef_eqb line1.1 line2.1
  || is_ref (Line.parent line1.2) line2.1
  || is_ref (Line.parent line2.2) line1.1.

(** The arrow function given to the traversal; the state is the
    variable [foundCollision]. *)
Definition collisionVisitor (line1 : Obj) : Obj -> Config -> bool -> jsval * bool :=
  fun line2 _ foundCollision =>
    if adjacent line1 line2 then (undefined, foundCollision)
    else let r := linesIntersect line1.2 line2.2 in (boolean r, r).

Definition checkForCollisions (canvas : Canvas) (line1 : Obj)
    (forEachLineUntilTrue : Traversal bool) : bool :=
  if lineOffscreen canvas line1.2 then true
  else
    let foundCollision := false in
    (forEachLineUntilTrue (collisionVisitor line1) foundCollision).2.
End Detector.

(** ** The growth model: [buildModel] *)

(** The mutable variables of one run: [seed] of [randomFromSeed] (here
    [rnd_seed]), and [activeLineCount] and [seeds] of [buildModel].
    [seeds] is [None] while the variable is still undefined.  [draws] is
    a ghost log of the values [rnd] has returned, oldest first. *)
Record State `{N : JSNum} := mkState {
  rnd_seed : Z;
  draws : list num;
  activeLineCount : Z;
  seeds : option (list Seed.t)
}.

(** Code that reads and writes these variables. *)
Definition M `{N : JSNum} (A : Type) : Type := State -> A * State.

Definition ret `{N : JSNum} {A : Type} (a : A) : M A := fun st => (a, st).

Definition bind `{N : JSNum} {A B : Type} (m : M A) (k : A -> M B) : M B :=
  fun st => let '(a, st') := m st in k a st'.

Notation "'let*' x := m 'in' k" := (bind m (fun x => k))
  (at level 10, x name, m at level 100, k at level 200).
Notation "m ;; k" := (bind m (fun _ => k))
  (at level 100, k at level 200, right associativity).

Section Model.
Context `{N : JSNum} {T : JSMath N}.
Variable canvas : Canvas.
Variable config : Config.

(** *** State access *)

(** [seeds || []] *)
Definition forest (st : State) : list Seed.t := default [] (seeds st).

Definition set_forest (ss : list Seed.t) (st : State) : State :=
  mkState _ (rnd_seed st) (draws st) (activeLineCount st) (Some ss).

Definition add_count (d : Z) : M unit := fun st =>
  (tt, mkState _ (rnd_seed st) (draws st) (activeLineCount st + d) (seeds st)).

Definition lookup_line (ss : list Seed.t) (r : LineRef) : option Line.t :=
  ss !! r.1 ≫= fun s => Seed.lines s !! r.2.

(** The forest after a write to the line object [r] (the object is
    replaced in its slot), and after [lines.push(l)] in seed [si]. *)
Definition put_line (r : LineRef) (l : Line.t) (ss : list Seed.t) : list Seed.t :=
  alter (fun s => Seed.set_lines (<[r.2 := l]> (Seed.lines s)) s) r.1 ss.

Definition append_line (si : nat) (l : Line.t) (ss : list Seed.t) : list Seed.t :=
  alter (fun s => Seed.set_lines (Seed.lines s ++ [l]) s) si ss.

Definition store_line (r : LineRef) (l : Line.t) : M unit := fun st =>
  (tt, set_forest (put_line r l (forest st)) st).

Definition push_line (si : nat) (l : Line.t) : M unit := fun st =>
  (tt, set_forest (append_line si l (forest st)) st).

(** *** [rnd] *)

Definition rnd (a b : num) : M num := fun st =>
  let '(v, seed') := randomFromSeed a b (rnd_seed st) in
  (v, mkState _ seed' (draws st ++ [v]) (activeLineCount st) (seeds st)).

(** [rnd()] *)
Definition rnd0 : M num := rnd (of_Z 1) (of_Z 0).

(** *** [buildLine] *)

Definition growthRate : num := of_Z 1.

(** The method [grow] of a line. *)
Definition Line_grow (l : Line.t) : M Line.t :=
  let p := Line.p1 l in
  let px := add (Point.x p) (mul (Math_sin (Line.angle l)) growthRate) in
  let py := add (Point.y p) (mul (Math_cos (Line.angle l)) growthRate) in
  let l := Line.set_p1 (Point.mk _ px py) l in
  let l := Line.set_steps (S (Line.steps l)) l in
  let* r := rnd0 in
  let l := Line.set_split (ltb r (pBifurcation config)) l in
  let* r := rnd0 in
  ret (if ltb r (mul (of_Z (Z.of_nat (Line.generation l))) (expiryThreshold config))
       then Line.set_expired true l else l).

(** The method [clip] of a line. *)
Definition Line_clip (l : Line.t) : Line.t :=
  let p := Line.p1 l in
  let px := sub (Point.x p) (mul (Math_sin (Line.angle l)) growthRate) in
  let py := sub (Point.y p) (mul (Math_cos (Line.angle l)) growthRate) in
  Line.set_p1 (Point.mk _ px py) l.

Definition buildLine (p0 : Point.t) (angle : num) (parent : option Obj) : M Line.t :=
  let* tag := rnd0 in
  let line :=
    Line.mk _ p0 p0 angle
      (match parent with Some p => Line.generation p.2 + 1 | None => 0 end)%nat
      (fst <$> parent) true false false 0%nat tag in
  add_count 1 ;;
  Line_grow line.

(** *** [forEachLineUntilTrue] *)

Definition forEachLineUntilTrue {V : Type} (st : State) : Traversal V :=
  fun fn v =>
    let '(_, v') :=
      array_some
        (fun seed si v =>
           let '(b, v') :=
             array_some
               (fun line li v => fn ((si, li), line) config v)
               (Seed.lines seed) v in
           (boolean b, v'))
        (forest st) v in
    (undefined, v').

(** *** [buildSeed] *)

Definition buildSeed : M Seed.t :=
  let* angle := rnd (of_Z 0) (mul Math_PI (of_Z 2)) in
  let* x := rnd (of_Z 0) (width canvas) in
  let* y := rnd (of_Z 0) (height canvas) in
  let* root := buildLine (Point.mk _ x y) angle None in
  ret (Seed.mk _ angle [root]).

(** [this.lines.filter(l => l.active)]: the objects are given by their
    indices in [lines]. *)
Fixpoint active_from (i : nat) (ls : list Line.t) : list nat :=
  match ls with
  | [] => []
  | l :: ls' => if Line.active l then i :: active_from (S i) ls' else active_from (S i) ls'
  end.

(** The body of the [forEach] callback in the seed's [grow], for the
    line object [(si, li)].  The objects of the snapshot are in the
    forest; the first branch is there for totality only. *)
Definition growLine (si li : nat) : M unit := fun st =>
  match lookup_line (forest st) (si, li) with
  | None => (tt, st)
  | Some line =>
      (let* line := Line_grow line in
       store_line (si, li) line ;;
       if Line.expired line then
         store_line (si, li) (Line.set_active false line) ;;
         add_count (-1)
       else
         let* collided :=
           (fun st => (checkForCollisions canvas ((si, li), line) (forEachLineUntilTrue st), st)) in
         if collided then
           let line := Line_clip line in
           let line := Line.set_active false line in
           store_line (si, li) line ;;
           add_count (-1)
         else if Line.split line then
           let line := Line.set_split false line in
           store_line (si, li) line ;;
           let* c := rnd0 in
           let newAngle :=
             add (Line.angle line)
                 (mul (div Math_PI (of_Z 2))
                      (if ltb c (div (of_Z 1) (of_Z 2)) then of_Z 1 else of_Z (-1))) in
           let* child :=
             buildLine (Point.mk _ (Point.x (Line.p1 line)) (Point.y (Line.p1 line)))
                       newAngle (Some ((si, li), line)) in
           push_line si child
         else ret tt) st
  end.

(** [forEach] over a list of indices. *)
Fixpoint for_each {A : Type} (f : A -> M unit) (l : list A) : M unit :=
  match l with
  | [] => ret tt
  | a :: l' => f a ;; for_each f l'
  end.

(** The method [grow] of the seed at index [si]. *)
Definition Seed_grow (si : nat) : M unit := fun st =>
  match forest st !! si with
  | None => (tt, st)
  | Some s => for_each (growLine si) (active_from 0 (Seed.lines s)) st
  end.

(** *** The model object *)

(** [Array(n)]: a [RangeError] unless [n] is an array length. *)
Definition js_Array (n : Z) : result (list unit) :=
  if (0 <=? n) && (n <? 4294967296) then Ok (replicate (Z.to_nat n) tt)
  else Throw RangeError.

(** [Array.prototype.map] with a callback that uses the state. *)
Fixpoint array_map {A B : Type} (f : A -> M B) (l : list A) : M (list B) :=
  match l with
  | [] => ret []
  | a :: l' => let* b := f a in let* bs := array_map f l' in ret (b :: bs)
  end.

Definition generate (st : State) : result State :=
  match js_Array (seedCount config) with
  | Throw e => Throw e
  | Ok arr =>
      let '(ss, st') := array_map (fun _ => buildSeed) arr st in
      Ok (set_forest ss st')
  end.

(** [seeds.forEach] fails on the undefined variable. *)
Definition grow (st : State) : result State :=
  match seeds st with
  | None => Throw TypeError
  | Some ss => Ok (for_each Seed_grow (seq 0 (length ss)) st).2
  end.

Definition isActive (st : State) : bool := 0 <? activeLineCount st.

(** The variables right after [buildModel(config, randomFromSeed(seed), _)]. *)
Definition buildModel (seed : Z) : State := mkState _ seed [] 0 None.
End Model.

(** ** Specification-side vocabulary *)

Section Vocabulary.
Context `{N : JSNum}.

(** The line objects of a forest, seed by seed in creation order and
    line by line in creation order. *)
Fixpoint line_objs_from (si i : nat) (ls : list Line.t) : list Obj :=
  match ls with
  | [] => []
  | l :: ls' => ((si, i), l) :: line_objs_from si (S i) ls'
  end.

Fixpoint all_objs_from (si : nat) (ss : list Seed.t) : list Obj :=
  match ss with
  | [] => []
  | s :: ss' => line_objs_from si 0 (Seed.lines s) ++ all_objs_from (S si) ss'
  end.

Definition all_objs (ss : list Seed.t) : list Obj := all_objs_from 0 ss.

(** A visitor that also records, in order, the objects it is called on. *)
Definition logged {V : Type} (fn : Obj -> Config -> V -> jsval * V)
    : Obj -> Config -> V * list Obj -> jsval * (V * list Obj) :=
  fun o c s => let '(r, v') := fn o c s.1 in (r, (v', s.2 ++ [o])).

(** Walking a list of objects in order and stopping right after the
    first one on which the visitor answers with a truthy value: the
    objects walked, and the visitor's variables at the end. *)
Fixpoint visits {V : Type} (fn : Obj -> Config -> V -> jsval * V) (c : Config)
    (os : list Obj) (v : V) : list Obj * V :=
  match os with
  | [] => ([], v)
  | o :: os' =>
      let '(r, v1) := fn o c v in
      if ToBoolean r then ([o], v1)
      else let '(ws, v2) := visits fn c os' v1 in (o :: ws, v2)
  end.

(** The prefix of a list up to and including the first element that
    satisfies [p] (the whole list when there is none). *)
Fixpoint take_through {A : Type} (p : A -> bool) (l : list A) : list A :=
  match l with
  | [] => []
  | a :: l' => if p a then [a] else a :: take_through p l'
  end.

(** A segment with integer end points, as a line object. *)
Definition segment (x0 y0 x1 y1 : Z) : Line.t :=
  Line.mk _ (Point.mk _ (of_Z x0) (of_Z y0)) (Point.mk _ (of_Z x1) (of_Z y1))
    (of_Z 0) 0%nat None true false false 0%nat (of_Z 0).


(** Number of calls of the method [grow] of a line that the lines of a
    forest have received so far: [steps] goes up by one in each call and
    nowhere else. *)
Definition total_steps (ss : list Seed.t) : nat :=
  sum_list (map (fun s => sum_list (map Line.steps (Seed.lines s))) ss).

(** Number of active lines in a forest. *)
Definition count_active (ss : list Seed.t) : nat :=
  sum_list (map (fun s => length (filter (fun l => Line.active l = true) (Seed.lines s))) ss).
End Vocabulary.

(** ** Runs *)

(** [k] calls of [grow] in a row. *)
Fixpoint grows `{N : JSNum} {T : JSMath N} (canvas : Canvas) (config : Config)
    (k : nat) (st : State) : result State :=
  match k with
  | O => Ok st
  | S k' =>
      match grow canvas config st with
      | Ok st1 => grows canvas config k' st1
      | Throw e => Throw e
      end
  end.

(** A run: a new model, one call of [generate], [k] calls of [grow]. *)
Definition run `{N : JSNum} {T : JSMath N} (canvas : Canvas) (config : Config)
    (seed : Z) (k : nat) : result State :=
  match generate canvas config (buildModel seed) with
  | Ok st => grows canvas config k st
  | Throw e => Throw e
  end.

(** ** Vocabulary for the statements about ticks *)

Section TickVocabulary.
Context `{N : JSNum} {T : JSMath N}.
Variable config : Config.

(** Several [push] calls in a row on the lines of seed [si]. *)
Definition append_lines (si : nat) (kids : list Line.t) (ss : list Seed.t) : list Seed.t :=
  alter (fun s => Seed.set_lines (Seed.lines s ++ kids) s) si ss.

(** Counting active lines, as integers: one flag, the lines of one seed,
    the whole forest. *)
Definition b2z (b : bool) : Z := if b then 1 else 0.

Definition active_in (ls : list Line.t) : Z :=
  Z.of_nat (length (filter (fun l => Line.active l = true) ls)).

Definition active_total (ss : list Seed.t) : Z := Z.of_nat (count_active ss).

(** The counter agrees with the forest. *)
Definition counter_ok (st : State) : Prop :=
  activeLineCount st = active_total (forest st).

(** A line as [buildLine] returns it for a root. *)
Definition fresh_root (l : Line.t) : Prop :=
  Line.steps l = 1%nat /\ Line.active l = true
  /\ Line.parent l = None /\ Line.generation l = 0%nat.

(** The line after its own [grow], before the two draws decide its flags. *)
Definition advanced (l : Line.t) : Line.t :=
  let p := Line.p1 l in
  Line.set_steps (S (Line.steps l))
    (Line.set_p1
       (Point.mk _ (add (Point.x p) (mul (Math_sin (Line.angle l)) growthRate))
                   (add (Point.y p) (mul (Math_cos (Line.angle l)) growthRate))) l).

(** The state in which the detector runs for the line [(si, li)], the
    angle of the child it may get, and the child itself. *)
Definition grown_state (si li : nat) (line : Line.t) (st : State) : State :=
  (store_line (si, li) (Line_grow config line st).1 (Line_grow config line st).2).2.

Definition split_state (si li : nat) (line : Line.t) (st : State) : State :=
  (store_line (si, li) (Line.set_split false (Line_grow config line st).1)
     (grown_state si li line st)).2.

Definition child_angle (l : Line.t) (c : num) : num :=
  add (Line.angle l)
      (mul (div Math_PI (of_Z 2))
           (if ltb c (div (of_Z 1) (of_Z 2)) then of_Z 1 else of_Z (-1))).

Definition child_of (si li : nat) (line : Line.t) (st : State) : Line.t * State :=
  let l := Line.set_split false (Line_grow config line st).1 in
  let st3 := split_state si li line st in
  buildLine config (Point.mk _ (Point.x (Line.p1 l)) (Point.y (Line.p1 l)))
    (child_angle l (rnd0 st3).1) (Some ((si, li), l)) (rnd0 st3).2.

(** The lines a seed's [grow] visits: those active when it starts. *)
Definition snapshot (st : State) (si : nat) : list LineRef :=
  match forest st !! si with
  | Some s => pair si <$> active_from 0 (Seed.lines s)
  | None => []
  end.

(** The lines a tick visits when it goes through the seeds [sis]. *)
Definition snapshots (st : State) (sis : list nat) : list LineRef :=
  sis ≫= snapshot st.

(** All active lines of a state. *)
Definition active_refs (st : State) : list LineRef :=
  snapshots st (seq 0 (length (forest st))).

(** [stepped D st st']: from [st] to [st'] exactly the lines in [D] have
    been visited by the tick. *)
Definition stepped (D : list LineRef) (st st' : State) : Prop :=
  length (forest st') = length (forest st)
  /\ (forall sj, sj ∉ D.*1 -> forest st' !! sj = forest st !! sj)
  /\ (forall r l, lookup_line (forest st) r = Some l ->
      exists l', lookup_line (forest st') r = Some l'
                 /\ (r ∈ D -> Line.steps l' = S (Line.steps l))
                 /\ (r ∉ D -> l' = l))
  /\ (forall r k, lookup_line (forest st) r = None ->
      lookup_line (forest st') r = Some k ->
      Line.steps k = 1%nat /\ Line.active k = true
      /\ exists p, Line.parent k = Some p /\ p ∈ D)
  /\ ((forall r l, r ∈ D -> lookup_line (forest st) r = Some l -> Line.active l = true) ->
      activeLineCount st' - active_total (forest st') =
      activeLineCount st - active_total (forest st)).
End TickVocabulary.

(** Calls a client can make on the model object.  A call that throws
    ([Array(n)] in [generate], [seeds.forEach] in [grow]) does so before
    any variable is written, and leaves the state as it was. *)
Inductive call := call_generate | call_grow.

(** The state after one call. *)
Definition do_call `{N : JSNum} {T : JSMath N} (canvas : Canvas) (config : Config)
    (st : State) (c : call) : State :=
  match c with
  | call_generate =>
      match generate canvas config st with Ok st' => st' | Throw _ => st end
  | call_grow =>
      match grow canvas config st with Ok st' => st' | Throw _ => st end
  end.

(** The state after a sequence of calls on a new model. *)
Definition after_calls `{N : JSNum} {T : JSMath N} (canvas : Canvas) (config : Config)
    (seed : Z) (cs : list call) : State :=
  foldl (do_call canvas config) (buildModel seed) cs.

(** How many of the calls are [generate()]. *)
Fixpoint generate_calls (cs : list call) : nat :=
  match cs with
  | [] => 0
  | call_generate :: cs' => S (generate_calls cs')
  | call_grow :: cs' => generate_calls cs'
  end.

(** The states a run goes through: the model of a given seed after
    [generate()] and [k] ticks. *)
Inductive runs_to `{N : JSNum} {T : JSMath N} (canvas : Canvas) (config : Config)
    (seed : Z) : nat -> State -> Prop :=
| runs_generate (st : State) :
    generate canvas config (buildModel seed) = Ok st ->
    runs_to canvas config seed 0 st
| runs_grow (k : nat) (st st' : State) :
    runs_to canvas config seed k st ->
    grow canvas config st = Ok st' ->
    runs_to canvas config seed (S k) st'.

(** ** Concrete settings for examples *)

(** An 800 by 600 canvas whose viewport is [0 <= x < 800], [0 <= y < 600]. *)
Definition demo_canvas : Canvas (N := Float64) := {|
  width := 800%float;
  height := 600%float;
  isVisible := fun x y =>
    PrimFloat.leb 0 x && PrimFloat.ltb x 800 && PrimFloat.leb 0 y && PrimFloat.ltb y 600
|}.

(** One seed, every line splits at every tick, nothing expires. *)
Definition demo_config : Config (N := Float64) := {|
  seedCount := 1;
  pBifurcation := 2%float;
  expiryThreshold := 0%float
|}.

(** The state right after [generate] with the demonstration settings,
    and its only line. *)
Definition demo_start : State (N := Float64) :=
  match generate demo_canvas demo_config (buildModel 1) with
  | Ok st => st
  | Throw _ => buildModel 1
  end.

Definition demo_root : Line.t (N := Float64) :=
  default (segment 0 0 0 0) (lookup_line (forest demo_start) (0, 0)%nat).

(** The state one tick after [demo_start]. *)
Definition demo_tick : State (N := Float64) :=
  match grow demo_canvas demo_config demo_start with
  | Ok st => st
  | Throw _ => demo_start
  end.

(** The forest of the "single collision" regression: a line and its
    child, which starts at the tip of its parent. *)
Definition demo_parent : Line.t (N := Float64) := segment 100 100 110 100.

Definition demo_child : Line.t (N := Float64) :=
  Line.mk _ (Point.mk _ 110%float 100%float) (Point.mk _ 110%float 110%float) 0%float 1%nat
    (Some (0, 0)%nat) true false false 1%nat 0%float.

Definition demo_family : State (N := Float64) :=
  mkState _ 1 [] 2 (Some [Seed.mk _ 0%float [demo_parent; demo_child]]).

(** A 2 by 2 canvas, and one seed whose lines neither split nor expire. *)
Definition tiny_canvas : Canvas (N := Float64) := {|
  width := 2%float;
  height := 2%float;
  isVisible := fun x y =>
    PrimFloat.leb 0 x && PrimFloat.ltb x 2 && PrimFloat.leb 0 y && PrimFloat.ltb y 2
|}.

Definition plain_config : Config (N := Float64) := {|
  seedCount := 1;
  pBifurcation := 0%float;
  expiryThreshold := 0%float
|}.




(** ** The random configuration: [buildRandomConfig] *)

(** [Math.round] on the finite numbers, as an integer: the nearest
    integer, a tie going up. *)
Class JSRound (N : JSNum) := {
  Math_round : @num N -> Z
}.

(** On binary64 the number is read as sign, mantissa and exponent; the
    numbers that are not finite do not arise where this is used and are
    sent to 0. *)
Definition F64_round (a : float) : Z :=
  match Prim2SF a with
  | S754_finite s m e =>
      let v := if s then Zneg m else Zpos m in
      if 0 <=? e then v * 2 ^ e else (2 * v + 2 ^ (- e)) / 2 ^ (- e + 1)
  | _ => 0
  end.

#[export] Instance Float64Round : JSRound Float64 := Build_JSRound Float64 F64_round.


(** A decimal literal [p/q] of the source: the quotient of two integers
    is rounded as the literal is. *)
Definition decimal `{N : JSNum} (p q : Z) : num := div (of_Z p) (of_Z q).

(** The object that [buildRandomConfig] returns. *)
Module RandomConfig.
Record t `{N : JSNum} := mk {
  seedCount : Z;
  pBifurcation : num;
  maxRectWidth : num;
  rectBaseHue : num;
  rectSaturation : num;
  rectHueVariation : num;
  rectAlpha : num;
  rectLightness : num;
  expiryThreshold : num;
  lineDarkness : num;
  pencilHorizontal : bool;
  useGradients : bool
}.

(** The options that the growth model reads. *)
Definition growth `{N : JSNum} (c : t) : Config :=
  Build_Config _ (seedCount c) (pBifurcation c) (expiryThreshold c).
End RandomConfig.

Definition buildRandomConfig `{N : JSNum} {R : JSRound N} : M RandomConfig.t :=
  let* r := rnd0 in
  let useGradients := ltb (decimal 3 10) r in
  let* seedCount := rnd (of_Z 1) (of_Z 10) in
  let* pBifurcation := rnd (decimal 2 100) (decimal 5 100) in
  let* maxRectWidth := rnd (of_Z 0) (of_Z 100) in
  let* rectBaseHue := rnd (of_Z 360) (of_Z 0) in
  let* rectSaturation := rnd (of_Z 20) (of_Z 100) in
  let* rectHueVariation := rnd (of_Z 100) (of_Z 0) in
  let* rectAlpha :=
    (if useGradients then rnd (decimal 4 10) (decimal 8 10)
     else rnd (decimal 1 10) (decimal 4 10)) in
  let* rectLightness := rnd (of_Z 20) (of_Z 70) in
  let* expiryThreshold := rnd (decimal 1 1000) (of_Z 0) in
  let* lineDarkness := rnd0 in
  let* p := rnd0 in
  ret (RandomConfig.mk _ (Math_round seedCount) pBifurcation maxRectWidth rectBaseHue
         rectSaturation rectHueVariation rectAlpha rectLightness expiryThreshold
         lineDarkness (ltb (decimal 1 2) p) useGradients).

(** [render.init()], as far as the generator and the model go: a new
    generator for the seed, the random configuration drawn from it, a
    new model on the same generator, and [generate()]. *)
Definition init `{N : JSNum} {T : JSMath N} {R : JSRound N} (canvas : Canvas) (seed : Z)
    : RandomConfig.t * result State :=
  let '(config, st) := buildRandomConfig (buildModel seed) in
  (config, generate canvas (RandomConfig.growth config) st).

(** ** The render loop: [createNewRender] *)

(** The calls on [view.canvas], an object from outside the file, in the
    order they are made.  The colour arguments, strings formatted from
    the configuration and from [line.rnd], are not represented. *)
Inductive CanvasCall `{N : JSNum} :=
| call_clear
| call_drawRect (line : Obj) (w : num) (useGradients : bool)
| call_drawLine (line : Obj).

(** The variables of a render ([model], [config], [stopRequested]) and
    what it has done to its surroundings: the callbacks given to
    [requestAnimationFrame] that have not run yet, the calls of
    [onFinished], and the calls on the canvas. *)
Module Render.
Record t `{N : JSNum} := mk {
  model : State;
  config : RandomConfig.t;
  stopRequested : bool;
  scheduled : nat;
  finished : nat;
  canvasCalls : list CanvasCall
}.
End Render.

Section RenderLoop.
Context `{N : JSNum} {T : JSMath N}.
Variable canvas : Canvas.

(** The two arrow functions of [update]; neither returns a value. *)
Definition drawRectVisitor (rc : RandomConfig.t)
    : Obj -> Config -> list CanvasCall -> jsval * list CanvasCall :=
  fun line _ log =>
    (undefined,
     log ++ [call_drawRect line
               (Math_min (RandomConfig.maxRectWidth rc) (of_Z (Z.of_nat (Line.steps line.2))))
               (RandomConfig.useGradients rc)]).

Definition drawLineVisitor : Obj -> Config -> list CanvasCall -> jsval * list CanvasCall :=
  fun line _ log => (undefined, log ++ [call_drawLine line]).

(** [update()]: its return value and the render afterwards. *)
Definition update (r : Render.t) : result (bool * Render.t) :=
  let rc := Render.config r in
  match grow canvas (RandomConfig.growth rc) (Render.model r) with
  | Throw e => Throw e
  | Ok st =>
      if isActive st then
        let log := Render.canvasCalls r ++ [call_clear] in
        let log :=
          (forEachLineUntilTrue (RandomConfig.growth rc) st (drawRectVisitor rc) log).2 in
        let log := (forEachLineUntilTrue (RandomConfig.growth rc) st drawLineVisitor log).2 in
        Ok (false,
            Render.mk _ st rc (Render.stopRequested r) (Render.scheduled r)
              (Render.finished r) log)
      else
        Ok (true,
            Render.mk _ st rc (Render.stopRequested r) (Render.scheduled r)
              (Render.finished r) (Render.canvasCalls r))
  end.

(** [doUpdate], the function that [start()] calls and hands to
    [requestAnimationFrame]. *)
Definition doUpdate (r : Render.t) : result Render.t :=
  match update r with
  | Throw e => Throw e
  | Ok (isComplete, r) =>
      if Render.stopRequested r then
        Ok (Render.mk _ (Render.model r) (Render.config r) false (Render.scheduled r)
              (Render.finished r) (Render.canvasCalls r))
      else if isComplete then
        Ok (Render.mk _ (Render.model r) (Render.config r) (Render.stopRequested r)
              (Render.scheduled r) (S (Render.finished r)) (Render.canvasCalls r))
      else
        Ok (Render.mk _ (Render.model r) (Render.config r) (Render.stopRequested r)
              (S (Render.scheduled r)) (Render.finished r) (Render.canvasCalls r))
  end.

Definition start (r : Render.t) : result Render.t := doUpdate r.

Definition stop (r : Render.t) : Render.t :=
  Render.mk _ (Render.model r) (Render.config r) true (Render.scheduled r)
    (Render.finished r) (Render.canvasCalls r).

(** The surroundings run one of the callbacks given to
    [requestAnimationFrame], when there is one. *)
Definition animationFrame (r : Render.t) : result Render.t :=
  match Render.scheduled r with
  | O => Ok r
  | S n =>
      doUpdate (Render.mk _ (Render.model r) (Render.config r) (Render.stopRequested r) n
                  (Render.finished r) (Render.canvasCalls r))
  end.

Fixpoint animationFrames (n : nat) (r : Render.t) : result Render.t :=
  match n with
  | O => Ok r
  | S n' =>
      match animationFrame r with
      | Ok r1 => animationFrames n' r1
      | Throw e => Throw e
      end
  end.

(** [render.init()]: the variables are set, the canvas is cleared and
    the model generated. *)
Definition render_init {R : JSRound N} (seed : Z) : result Render.t :=
  let '(rc, res) := init canvas seed in
  match res with
  | Ok st => Ok (Render.mk _ st rc false 0 0 [call_clear])
  | Throw e => Throw e
  end.

(** The calls that draw one frame of a forest. *)
Definition frame_calls (rc : RandomConfig.t) (ss : list Seed.t) : list CanvasCall :=
  call_clear
  :: map (fun line =>
            call_drawRect line
              (Math_min (RandomConfig.maxRectWidth rc) (of_Z (Z.of_nat (Line.steps line.2))))
              (RandomConfig.useGradients rc)) (all_objs ss)
  ++ map call_drawLine (all_objs ss).

(** The number of frames in a list of calls: one [clear()] opens each. *)
Fixpoint clears (cs : list CanvasCall) : nat :=
  match cs with
  | [] => 0
  | call_clear :: cs' => S (clears cs')
  | _ :: cs' => clears cs'
  end.
End RenderLoop.

(** A 6 by 6 canvas, the render of seed 2 on it right after
    [render.init()], and its model three ticks later. *)
Definition small_canvas : Canvas (N := Float64) := {|
  width := 6%float;
  height := 6%float;
  isVisible := fun x y =>
    PrimFloat.leb 0 x && PrimFloat.ltb x 6 && PrimFloat.leb 0 y && PrimFloat.ltb y 6
|}.

Definition small_render : Render.t (N := Float64) :=
  match render_init small_canvas 2 with
  | Ok r => r
  | Throw _ =>
      Render.mk _ (buildModel 2) (buildRandomConfig (buildModel 2)).1 false 0 0 []
  end.

Definition small_final : State (N := Float64) :=
  match grows small_canvas (RandomConfig.growth (Render.config small_render)) 3
          (Render.model small_render) with
  | Ok st => st
  | Throw _ => Render.model small_render
  end.

(** ** Vocabulary for the generator *)


(** ** Vocabulary for the detector *)


(** The verdict of the detector's visitor on a pair of line objects:
    they are not adjacent and their segments intersect. *)
Definition collides `{N : JSNum} (line1 line2 : Obj) : bool :=
  negb (adjacent line1 line2) && linesIntersect line1.2 line2.2.



(** A point of the closed segment from [p] to [r], in exact arithmetic. *)
Definition between (p r q : Point.t (N := Exact)) : Prop :=
  exists t : Q,
    (0 <= t /\ t <= 1
     /\ Point.x q == Point.x p + t * (Point.x r - Point.x p)
     /\ Point.y q == Point.y p + t * (Point.y r - Point.y p))%Q.

(** The two closed segments have a point in common. *)
Definition segments_meet (l1 l2 : Line.t (N := Exact)) : Prop :=
  exists q : Point.t (N := Exact),
    between (Line.p0 l1) (Line.p1 l1) q /\ between (Line.p0 l2) (Line.p1 l2) q.


(** ** Vocabulary for the invariants of the forest *)

Section ForestVocabulary.
Context `{N : JSNum} {T : JSMath N}.

(** The sum of a measure over all lines of a forest. *)
Definition lines_sum (f : Line.t -> Z) (ls : list Line.t) : Z :=
  foldr (fun l acc => f l + acc) 0 ls.

Definition forest_sum (f : Line.t -> Z) (ss : list Seed.t) : Z :=
  foldr (fun s acc => lines_sum f (Seed.lines s) + acc) 0 ss.

(** The number of draws made so far. *)
Definition used (st : State) : Z := Z.of_nat (length (draws st)).

(** One step of a tip along the angle [a], and one step back: what
    [grow] and [clip] do to [p1]. *)
Definition advance (a : num) (p : Point.t) : Point.t :=
  Point.mk _ (add (Point.x p) (mul (Math_sin a) growthRate))
             (add (Point.y p) (mul (Math_cos a) growthRate)).

Definition retreat (a : num) (p : Point.t) : Point.t :=
  Point.mk _ (sub (Point.x p) (mul (Math_sin a) growthRate))
             (sub (Point.y p) (mul (Math_cos a) growthRate)).

(** Where the tip of [l] is after [n] steps from its origin. *)
Definition tip_after (l : Line.t) (n : nat) : Point.t :=
  Nat.iter n (advance (Line.angle l)) (Line.p0 l).

(** The fields of a line that are written once, at creation. *)
Definition same_core (l l' : Line.t) : Prop :=
  Line.p0 l' = Line.p0 l /\ Line.angle l' = Line.angle l
  /\ Line.generation l' = Line.generation l /\ Line.parent l' = Line.parent l
  /\ Line.rnd l' = Line.rnd l.

(** How a line may differ between an earlier and a later state. *)
Definition line_later (l l' : Line.t) : Prop :=
  same_core l l'
  /\ (Line.steps l <= Line.steps l')%nat
  /\ (Line.active l' = true -> Line.active l = true)
  /\ (Line.expired l = true -> Line.expired l' = true)
  /\ (Line.active l = false -> l' = l).

Definition forest_later (ss ss' : list Seed.t) : Prop :=
  length ss' = length ss
  /\ forall r l, lookup_line ss r = Some l ->
       exists l', lookup_line ss' r = Some l' /\ line_later l l'.

(** The tip of a line is where its step count says: an active line has
    gone [steps] steps from its origin; a stopped line has too, or has
    been clipped back once from there. *)
Definition tip_ok (l : Line.t) : Prop :=
  (1 <= Line.steps l)%nat
  /\ (Line.active l = true -> Line.p1 l = tip_after l (Line.steps l))
  /\ (Line.active l = false ->
      Line.p1 l = tip_after l (Line.steps l)
      \/ Line.p1 l = retreat (Line.angle l) (tip_after l (Line.steps l))).

(** The angle [a'] is the angle [a] turned by [Math.PI/2] one way or the
    other, as the source computes it. *)
Definition quarter_turn (a a' : num) : Prop :=
  a' = add a (mul (div Math_PI (of_Z 2)) (of_Z 1))
  \/ a' = add a (mul (div Math_PI (of_Z 2)) (of_Z (-1))).

(** The line at [r] is a root in slot 0, or the child of an earlier line
    of its own seed, one generation deeper, a quarter turn away from its
    parent, that starts on the path of its parent. *)
Definition parent_ok (ss : list Seed.t) (r : LineRef) (l : Line.t) : Prop :=
  match Line.parent l with
  | None => r.2 = 0%nat /\ Line.generation l = 0%nat
  | Some p =>
      p.1 = r.1 /\ (p.2 < r.2)%nat
      /\ exists lp, lookup_line ss p = Some lp
                    /\ Line.generation l = S (Line.generation lp)
                    /\ quarter_turn (Line.angle lp) (Line.angle l)
                    /\ exists j, (2 <= j <= Line.steps lp)%nat /\ Line.p0 l = tip_after lp j
  end.

Definition forest_ok (ss : list Seed.t) : Prop :=
  (forall si s, ss !! si = Some s ->
     exists root, Seed.lines s !! 0%nat = Some root
                  /\ Line.parent root = None /\ Line.angle root = Seed.angle s)
  /\ forall r l, lookup_line ss r = Some l -> tip_ok l /\ parent_ok ss r l.


(** A seed as [buildSeed] returns it: one line, the root, grown once,
    with the angle of the seed. *)
Definition seed_fresh (s : Seed.t) : Prop :=
  exists root,
    Seed.lines s = [root] /\ fresh_root root
    /\ Line.angle root = Seed.angle s
    /\ Line.p1 root = advance (Line.angle root) (Line.p0 root).

End ForestVocabulary.

(** ** Segment intersection *)

Section Intersection.
Context `{N : JSNum}.

Lemma linesIntersect_cases (l1 l2 : Line.t) :
  let o1 := orientation (Line.p0 l1) (Line.p1 l1) (Line.p0 l2) in
  let o2 := orientation (Line.p0 l1) (Line.p1 l1) (Line.p1 l2) in
  let o3 := orientation (Line.p0 l2) (Line.p1 l2) (Line.p0 l1) in
  let o4 := orientation (Line.p0 l2) (Line.p1 l2) (Line.p1 l1) in
  linesIntersect l1 l2 =
    (negb (Orientation_eqb o1 o2) && negb (Orientation_eqb o3 o4))
    || (Orientation_eqb o1 COLINEAR && onSegment (Line.p0 l1) (Line.p0 l2) (Line.p1 l1))
    || (Orientation_eqb o2 COLINEAR && onSegment (Line.p0 l1) (Line.p1 l2) (Line.p1 l1))
    || (Orientation_eqb o3 COLINEAR && onSegment (Line.p0 l2) (Line.p0 l1) (Line.p1 l2))
    || (Orientation_eqb o4 COLINEAR && onSegment (Line.p0 l2) (Line.p1 l1) (Line.p1 l2)).
Proof.
  intros o1 o2 o3 o4. unfold linesIntersect. fold o1 o2 o3 o4.
  repeat match goal with
         | |- context [if ?c then true else _] => destruct c eqn:?
         end; reflexivity.
Qed.


End Intersection.


(** ** The range of a draw *)









(** ** The traversal *)

Section Traversal.
Context `{N : JSNum}.

Lemma array_some_from_index {A V : Type} (f : A -> V -> jsval * V) (l : list A) :
  forall i j v,
    array_some_from i (fun a _ => f a) l v = array_some_from j (fun a _ => f a) l v.
Proof.
  induction l as [| a l IH]; intros i j v; simpl; [reflexivity |].
  destruct (f a v) as [r v1]. destruct (ToBoolean r); [reflexivity | apply IH].
Qed.

Lemma array_some_from_app {A V : Type} (f : A -> V -> jsval * V) (l1 l2 : list A) :
  forall i j k v,
    array_some_from i (fun a _ => f a) (l1 ++ l2) v =
    let '(b, v1) := array_some_from j (fun a _ => f a) l1 v in
    if b then (true, v1) else array_some_from k (fun a _ => f a) l2 v1.
Proof.
  induction l1 as [| a l1 IH]; intros i j k v; simpl.
  - apply array_some_from_index.
  - destruct (f a v) as [r v1]. destruct (ToBoolean r); [reflexivity |].
    apply IH.
Qed.

(** The inner [some], over the lines of one seed, is a walk over that
    seed's objects. *)
Lemma inner_some_objs {V : Type} (fn : Obj -> Config -> V -> jsval * V)
    (c : Config) (si : nat) (ls : list Line.t) :
  forall i v,
    array_some_from i (fun line li v => fn ((si, li), line) c v) ls v =
    array_some (fun o _ v => fn o c v) (line_objs_from si i ls) v.
Proof.
  induction ls as [| l ls IH]; intros i v; simpl; [reflexivity |].
  unfold array_some. simpl.
  destruct (fn (si, i, l) c v) as [r v1]. destruct (ToBoolean r); [reflexivity |].
  rewrite IH. unfold array_some.
  apply (array_some_from_index (fun o v => fn o c v)).
Qed.

(** The two nested [some] calls are one walk over all objects. *)
Lemma outer_some_objs {V : Type} (fn : Obj -> Config -> V -> jsval * V)
    (c : Config) (ss : list Seed.t) :
  forall si v,
    array_some_from si
      (fun seed si v =>
         let '(b, v') :=
           array_some (fun line li v => fn ((si, li), line) c v) (Seed.lines seed) v in
         (boolean b, v')) ss v =
    array_some (fun o _ v => fn o c v) (all_objs_from si ss) v.
Proof.
  induction ss as [| s ss IH]; intros si v; simpl; [reflexivity |].
  unfold array_some at 1. rewrite inner_some_objs.
  unfold array_some.
  pose proof (array_some_from_app (fun o v => fn o c v)
                (line_objs_from si 0 (Seed.lines s)) (all_objs_from (S si) ss)
                0 0 0 v)%nat as E.
  cbv beta in E. rewrite E. clear E.
  destruct (array_some_from 0 _ (line_objs_from si 0 (Seed.lines s)) v) as [b v1].
  simpl. destruct b; [reflexivity |].
  rewrite IH. reflexivity.
Qed.

Lemma forEachLineUntilTrue_flat {V : Type} (c : Config) (st : State)
    (fn : Obj -> Config -> V -> jsval * V) (v : V) :
  forEachLineUntilTrue c st fn v =
  (undefined, (array_some (fun o _ v => fn o c v) (all_objs (forest st)) v).2).
Proof.
  unfold forEachLineUntilTrue. unfold array_some at 1.
  rewrite outer_some_objs. fold (all_objs (forest st)).
  destruct (array_some _ (all_objs (forest st)) v); reflexivity.
Qed.

Lemma flat_some_visits {V : Type} (fn : Obj -> Config -> V -> jsval * V)
    (c : Config) (os : list Obj) :
  forall i v, (array_some_from i (fun o _ v => fn o c v) os v).2 = (visits fn c os v).2.
Proof.
  induction os as [| o os IH]; intros i v; simpl; [reflexivity |].
  destruct (fn o c v) as [r v1]. destruct (ToBoolean r); [reflexivity |].
  rewrite IH. destruct (visits fn c os v1); reflexivity.
Qed.

Lemma flat_some_logged {V : Type} (fn : Obj -> Config -> V -> jsval * V)
    (c : Config) (os : list Obj) :
  forall i v log,
    (array_some_from i (fun o _ s => logged fn o c s) os (v, log)).2 =
    ((visits fn c os v).2, log ++ (visits fn c os v).1).
Proof.
  induction os as [| o os IH]; intros i v log; simpl.
  - rewrite app_nil_r. reflexivity.
  - unfold logged at 1. simpl. destruct (fn o c v) as [r v1].
    destruct (ToBoolean r); [reflexivity |].
    rewrite IH. destruct (visits fn c os v1) as [ws v2]. simpl.
    rewrite <- app_assoc. reflexivity.
Qed.

Lemma visits_prefix {V : Type} (fn : Obj -> Config -> V -> jsval * V)
    (c : Config) (os : list Obj) :
  forall v, (visits fn c os v).1 `prefix_of` os.
Proof.
  induction os as [| o os IH]; intros v; simpl; [reflexivity |].
  destruct (fn o c v) as [r v1]. destruct (ToBoolean r).
  - simpl. exists os. reflexivity.
  - specialize (IH v1). destruct (visits fn c os v1) as [ws v2]. simpl in *.
    apply prefix_cons, IH.
Qed.

(** A visitor whose answer is a fixed test of the object stops right
    after the first object that passes the test. *)
Lemma visits_pure {V : Type} (fn : Obj -> Config -> V -> jsval * V)
    (c : Config) (p : Obj -> bool) (os : list Obj) :
  (forall o v, ToBoolean (fn o c v).1 = p o) ->
  forall v, (visits fn c os v).1 = take_through p os.
Proof.
  intros Hp. induction os as [| o os IH]; intros v; simpl; [reflexivity |].
  specialize (Hp o v). destruct (fn o c v) as [r v1]. simpl in Hp. rewrite Hp.
  destruct (p o); [reflexivity |].
  specialize (IH v1). destruct (visits fn c os v1). simpl in *. congruence.
Qed.

(** Objects and slots. *)
Lemma line_objs_from_lookup (si : nat) (ls : list Line.t) :
  forall i (r : LineRef) (l : Line.t),
    (r, l) ∈ line_objs_from si i ls <->
    r.1 = si /\ (i <= r.2)%nat /\ ls !! (r.2 - i)%nat = Some l.
Proof.
  induction ls as [| l0 ls IH]; intros i r l; simpl.
  - rewrite elem_of_nil. split; [tauto | intros (_ & _ & H); discriminate].
  - rewrite elem_of_cons, IH. destruct r as [a b]. simpl. split.
    + intros [H | (H1 & H2 & H3)].
      * inversion H; subst. rewrite Nat.sub_diag. simpl. auto.
      * split; [exact H1 |]. split; [lia |].
        replace (b - i)%nat with (S (b - S i)) by lia. exact H3.
    + intros (H1 & H2 & H3). destruct (decide (b = i)) as [-> | Hne].
      * left. rewrite Nat.sub_diag in H3. simpl in H3.
        inversion H3; subst; reflexivity.
      * right. split; [exact H1 |]. split; [lia |].
        replace (b - i)%nat with (S (b - S i)) in H3 by lia. exact H3.
Qed.

Lemma all_objs_from_lookup (ss : list Seed.t) :
  forall si (r : LineRef) (l : Line.t),
    (r, l) ∈ all_objs_from si ss <->
    (si <= r.1)%nat /\ lookup_line ss ((r.1 - si)%nat, r.2) = Some l.
Proof.
  unfold lookup_line.
  induction ss as [| s ss IH]; intros si r l; simpl.
  - rewrite elem_of_nil. split; [tauto | intros (_ & H); discriminate].
  - rewrite elem_of_app, line_objs_from_lookup, IH. destruct r as [a b]. simpl.
    rewrite Nat.sub_0_r. split.
    + intros [(H1 & _ & H3) | (H1 & H2)].
      * subst a. rewrite Nat.sub_diag. simpl. auto.
      * split; [lia |].
        replace (a - si)%nat with (S (a - S si)) by lia. exact H2.
    + intros (H1 & H2). destruct (decide (a = si)) as [-> | Hne].
      * left. rewrite Nat.sub_diag in H2. simpl in H2. auto with lia.
      * right. split; [lia |].
        replace (a - si)%nat with (S (a - S si)) in H2 by lia. exact H2.
Qed.

Lemma all_objs_lookup (ss : list Seed.t) (r : LineRef) (l : Line.t) :
  (r, l) ∈ all_objs ss <-> lookup_line ss r = Some l.
Proof.
  unfold all_objs. rewrite all_objs_from_lookup. destruct r as [a b]. simpl.
  rewrite Nat.sub_0_r. split; [tauto | auto with lia].
Qed.
End Traversal.

(** C7, as the code has it.  [forEachLineUntilTrue] calls the visitor on
    the lines of all seeds, seeds in creation order and lines in creation
    order within a seed, and stops right after the first call that
    answers with a truthy value; the call itself returns no value
    ([undefined]) in every case. *)
Theorem forEachLineUntilTrue_traversal `{N : JSNum} {V : Type}
    (c : Config) (st : State) (fn : Obj -> Config -> V -> jsval * V) (v : V) :
  let os := all_objs (forest st) in
  forEachLineUntilTrue c st fn v = (undefined, (visits fn c os v).2)
  /\ forEachLineUntilTrue c st (logged fn) (v, []) =
       (undefined, ((visits fn c os v).2, (visits fn c os v).1))
  /\ (visits fn c os v).1 `prefix_of` os
  /\ (forall p : Obj -> bool,
        (forall o v', ToBoolean (fn o c v').1 = p o) ->
        (visits fn c os v).1 = take_through p os).
Proof.
  intros os. repeat split.
  - rewrite forEachLineUntilTrue_flat. unfold array_some.
    rewrite flat_some_visits. reflexivity.
  - rewrite forEachLineUntilTrue_flat. unfold array_some.
    rewrite (flat_some_logged fn c). reflexivity.
  - apply visits_prefix.
  - intros p Hp. apply visits_pure, Hp.
Qed.

Lemma forEachLineUntilTrue_traversal_witness :
  let os := all_objs (forest demo_family) in
  let fn := fun (_ : Obj) (_ : Config) (v : unit) => (boolean true, v) in
  forEachLineUntilTrue demo_config demo_family (logged fn) (tt, []) =
    (undefined, ((visits fn demo_config os tt).2, (visits fn demo_config os tt).1))
  /\ (visits fn demo_config os tt).1 = take_through (fun _ => true) os.
Proof.
  intros os fn.
  destruct (forEachLineUntilTrue_traversal demo_config demo_family fn tt)
    as (_ & H2 & _ & H4).
  split; [exact H2 |]. apply H4. intros o v'. reflexivity.
Defined.

(** C7 as stated fails: with one line in the forest and a visitor that
    answers [true], the visitor is called and the traversal stops, but
    the value returned is [undefined], not [true]. *)
Lemma forEachLineUntilTrue_counterexample :
  exists st,
    generate demo_canvas demo_config (buildModel 1) = Ok st
    /\ length (all_objs (forest st)) = 1%nat
    /\ length (forEachLineUntilTrue demo_config st
                 (logged (fun _ _ (v : unit) => (boolean true, v))) (tt, [])).2.2 = 1%nat
    /\ (forEachLineUntilTrue demo_config st
          (fun _ _ (v : unit) => (boolean true, v)) tt).1 = undefined
    /\ (forEachLineUntilTrue demo_config st
          (fun _ _ (v : unit) => (boolean true, v)) tt).1 <> boolean true.
Proof.
  eexists. split; [vm_compute; reflexivity |].
  repeat split; try (vm_compute; reflexivity).
  vm_compute. discriminate.
Qed.

(** ** The collision detector *)

Section DetectorFacts.
Context `{N : JSNum}.

Lemma LineRef_eqb_eq (a b : LineRef) : LineRef_eqb a b = true <-> a = b.
Proof.
  destruct a as [a1 a2], b as [b1 b2]. unfold LineRef_eqb. simpl.
  rewrite andb_true_iff, !Nat.eqb_eq. split; [intros [-> ->]; reflexivity |].
  intros H; inversion H; auto.
Qed.

Lemma is_ref_true (o : option LineRef) (r : LineRef) : is_ref o r = true <-> o = Some r.
Proof.
  destruct o as [p |]; simpl.
  - rewrite LineRef_eqb_eq. split; [intros ->; reflexivity | intros H; inversion H; reflexivity].
  - split; discriminate.
Qed.

Lemma adjacent_true (line1 line2 : Obj) :
  adjacent line1 line2 = true <->
  line1.1 = line2.1 \/ Line.parent line1.2 = Some line2.1 \/ Line.parent line2.2 = Some line1.1.
Proof.
  unfold adjacent. rewrite !orb_true_iff, LineRef_eqb_eq, !is_ref_true. tauto.
Qed.

Lemma adjacent_false (line1 line2 : Obj) :
  adjacent line1 line2 = false <->
  line1.1 <> line2.1 /\ Line.parent line1.2 <> Some line2.1
  /\ Line.parent line2.2 <> Some line1.1.
Proof.
  rewrite <- not_true_iff_false, adjacent_true. tauto.
Qed.

(** What the detector's visitor leaves in [foundCollision] after a walk. *)
Lemma collision_walk (c : Config) (line1 : Obj) (os : list Obj) :
  forall found,
    (visits (collisionVisitor line1) c os found).2 =
    found && forallb (adjacent line1) os
    || existsb (fun o => negb (adjacent line1 o) && linesIntersect line1.2 o.2) os.
Proof.
  induction os as [| o os IH]; intros found; simpl.
  - rewrite andb_true_r, orb_false_r. reflexivity.
  - unfold collisionVisitor at 1. destruct (adjacent line1 o) eqn:Ea; simpl.
    + specialize (IH found).
      destruct (visits (collisionVisitor line1) c os found). simpl in *. exact IH.
    + destruct (linesIntersect line1.2 o.2) eqn:Ei; simpl.
      * rewrite orb_true_r. reflexivity.
      * specialize (IH false).
        destruct (visits (collisionVisitor line1) c os false). simpl in *.
        rewrite IH, andb_false_r. reflexivity.
Qed.
End DetectorFacts.

(** C5.  [checkForCollisions] answers true for a line whose tip is
    outside the viewport whatever the traversal is (it is not used).
    For a tip inside, it answers true exactly when some line of some
    seed, active or not, other than the line itself, its parent and its
    children, intersects it; the visitor is called on the lines in
    traversal order up to and including the first such line. *)
Theorem checkForCollisions_correct `{N : JSNum}
    (canvas : Canvas) (c : Config) (st : State) (line1 : Obj) :
  (lineOffscreen canvas line1.2 = true ->
   forall trav : Traversal bool, checkForCollisions canvas line1 trav = true)
  /\ (lineOffscreen canvas line1.2 = false ->
      (checkForCollisions canvas line1 (forEachLineUntilTrue c st) = true <->
       exists (r : LineRef) (line2 : Line.t),
         lookup_line (forest st) r = Some line2
         /\ r <> line1.1
         /\ Line.parent line1.2 <> Some r
         /\ Line.parent line2 <> Some line1.1
         /\ linesIntersect line1.2 line2 = true)
      /\ (forEachLineUntilTrue c st (logged (collisionVisitor line1)) (false, [])).2.2 =
         take_through
           (fun o => negb (adjacent line1 o) && linesIntersect line1.2 o.2)
           (all_objs (forest st))).
Proof.
  split.
  - intros Hoff trav. unfold checkForCollisions. rewrite Hoff. reflexivity.
  - intros Hvis. split.
    + unfold checkForCollisions. rewrite Hvis.
      rewrite forEachLineUntilTrue_flat. unfold array_some. cbn [snd].
      rewrite flat_some_visits, collision_walk. cbn [andb orb].
      rewrite existsb_exists. split.
      * intros ([r line2] & Hin & Hp). apply andb_true_iff in Hp as [Ha Hi].
        apply negb_true_iff, adjacent_false in Ha. simpl in Ha, Hi.
        exists r, line2. apply list_elem_of_In, all_objs_lookup in Hin.
        destruct Ha as (H1 & H2 & H3). repeat split; auto.
      * intros (r & line2 & Hl & H1 & H2 & H3 & Hi).
        exists (r, line2). split.
        -- apply list_elem_of_In, all_objs_lookup, Hl.
        -- apply andb_true_iff. split; [| exact Hi].
           apply negb_true_iff, adjacent_false. simpl. auto.
    + rewrite forEachLineUntilTrue_flat. unfold array_some. cbn [snd].
      rewrite (flat_some_logged (collisionVisitor line1) c). cbn [snd app].
      apply visits_pure. intros o v'. unfold collisionVisitor.
      destruct (adjacent line1 o); simpl; reflexivity.
Qed.

Lemma checkForCollisions_correct_witness :
  (forall trav : Traversal bool,
     checkForCollisions demo_canvas ((0, 0)%nat, segment 0 0 (-5) 0) trav = true)
  /\ (checkForCollisions demo_canvas ((0, 1)%nat, demo_child)
        (forEachLineUntilTrue demo_config demo_family) = true <->
      exists (r : LineRef) (line2 : Line.t),
        lookup_line (forest demo_family) r = Some line2
        /\ r <> (0, 1)%nat
        /\ Line.parent demo_child <> Some r
        /\ Line.parent line2 <> Some (0, 1)%nat
        /\ linesIntersect demo_child line2 = true).
Proof.
  split.
  - apply (checkForCollisions_correct demo_canvas demo_config demo_family
             ((0, 0)%nat, segment 0 0 (-5) 0)).
    vm_compute. reflexivity.
  - apply (checkForCollisions_correct demo_canvas demo_config demo_family
             ((0, 1)%nat, demo_child)).
    vm_compute. reflexivity.
Defined.

(** Adjacency exclusion on that forest: parent and child touch, and
    neither reports a collision. *)
Example single_collision_regression :
  linesIntersect demo_child demo_parent = true
  /\ checkForCollisions demo_canvas ((0, 1)%nat, demo_child)
       (forEachLineUntilTrue demo_config demo_family) = false
  /\ checkForCollisions demo_canvas ((0, 0)%nat, demo_parent)
       (forEachLineUntilTrue demo_config demo_family) = false.
Proof. repeat split; vm_compute; reflexivity. Qed.

(** ** [generate] *)

(** C9, as the code has it.  With [seedCount] equal to 0, [generate]
    succeeds on a new model, [seeds] is the empty array and [isActive()]
    is false. *)
Theorem generate_no_seeds `{N : JSNum} {T : JSMath N}
    (canvas : Canvas) (config : Config) (seed : Z) :
  seedCount config = 0 ->
  exists st,
    generate canvas config (buildModel seed) = Ok st
    /\ seeds st = Some []
    /\ isActive st = false.
Proof.
  intros H0. unfold generate, js_Array. rewrite H0. simpl.
  eexists. split; [reflexivity |]. split; reflexivity.
Qed.

Lemma generate_no_seeds_witness :
  exists st,
    generate demo_canvas
      {| seedCount := 0; pBifurcation := 0.5%float; expiryThreshold := 0%float |}
      (buildModel 1) = Ok st
    /\ seeds st = Some []
    /\ isActive st = false.
Proof. apply generate_no_seeds. reflexivity. Defined.

(** C9 as stated fails below zero: with [seedCount] equal to -1 the call
    [Array(-1)] raises a [RangeError] and [generate] does not return. *)
Lemma generate_negative_counterexample :
  generate demo_canvas
    {| seedCount := -1; pBifurcation := 0.5%float; expiryThreshold := 0%float |}
    (buildModel 1) = Throw RangeError
  /\ ~ exists st,
         generate demo_canvas
           {| seedCount := -1; pBifurcation := 0.5%float; expiryThreshold := 0%float |}
           (buildModel 1) = Ok st
         /\ isActive st = false.
Proof.
  split; [reflexivity |]. intros (st & H & _). discriminate H.
Qed.

(** ** Reading and writing the forest *)

Section Forest.
Context `{N : JSNum}.

Lemma append_line_lines (si : nat) (l : Line.t) (ss : list Seed.t) :
  append_line si l ss = append_lines si [l] ss.
Proof. reflexivity. Qed.

Lemma append_lines_nil (si : nat) (ss : list Seed.t) : append_lines si [] ss = ss.
Proof.
  unfold append_lines. apply list_alter_id. intros [a ls].
  unfold Seed.set_lines. simpl. rewrite app_nil_r. reflexivity.
Qed.

Lemma lookup_line_Some (ss : list Seed.t) (r : LineRef) (l : Line.t) :
  lookup_line ss r = Some l <->
  exists s, ss !! r.1 = Some s /\ Seed.lines s !! r.2 = Some l.
Proof.
  unfold lookup_line. destruct (ss !! r.1) as [s |]; simpl.
  - split; [eauto |]. intros (s' & E & H). inversion E; subst. exact H.
  - split; [discriminate |]. intros (s' & E & _). discriminate.
Qed.

Lemma put_line_seed_ne (r : LineRef) (l : Line.t) (ss : list Seed.t) (sj : nat) :
  sj <> r.1 -> put_line r l ss !! sj = ss !! sj.
Proof. intros H. unfold put_line. apply list_lookup_alter_ne. congruence. Qed.

Lemma append_lines_seed_ne (si : nat) (kids : list Line.t) (ss : list Seed.t) (sj : nat) :
  sj <> si -> append_lines si kids ss !! sj = ss !! sj.
Proof. intros H. unfold append_lines. apply list_lookup_alter_ne. congruence. Qed.

Lemma length_put_line (r : LineRef) (l : Line.t) (ss : list Seed.t) :
  length (put_line r l ss) = length ss.
Proof. apply length_alter. Qed.

Lemma length_append_lines (si : nat) (kids : list Line.t) (ss : list Seed.t) :
  length (append_lines si kids ss) = length ss.
Proof. apply length_alter. Qed.

Lemma lookup_put_line_eq (r : LineRef) (l l' : Line.t) (ss : list Seed.t) :
  lookup_line ss r = Some l -> lookup_line (put_line r l' ss) r = Some l'.
Proof.
  intros H. apply lookup_line_Some in H as (s & Hs & Hl).
  apply lookup_line_Some. exists (Seed.set_lines (<[r.2 := l']> (Seed.lines s)) s).
  split.
  - unfold put_line. rewrite list_lookup_alter_eq, Hs. reflexivity.
  - simpl. apply list_lookup_insert_eq. eapply lookup_lt_Some, Hl.
Qed.

Lemma lookup_put_line_ne (r r' : LineRef) (l' : Line.t) (ss : list Seed.t) :
  r' <> r -> lookup_line (put_line r l' ss) r' = lookup_line ss r'.
Proof.
  intros Hne. unfold lookup_line, put_line.
  destruct (decide (r'.1 = r.1)) as [E | E].
  - rewrite E, list_lookup_alter_eq.
    destruct (ss !! r.1) as [s |]; simpl; [| reflexivity].
    apply list_lookup_insert_ne. intros E2. apply Hne.
    destruct r, r'. simpl in *. congruence.
  - rewrite list_lookup_alter_ne by congruence. reflexivity.
Qed.

Lemma lookup_put_line_None (r r' : LineRef) (l' : Line.t) (ss : list Seed.t) :
  lookup_line ss r' = None -> lookup_line (put_line r l' ss) r' = None.
Proof.
  intros H. destruct (decide (r' = r)) as [-> | Hne].
  - unfold lookup_line, put_line in *. rewrite list_lookup_alter_eq.
    destruct (ss !! r.1) as [s |]; simpl in *; [| reflexivity].
    apply lookup_ge_None. rewrite length_insert. apply lookup_ge_None, H.
  - rewrite lookup_put_line_ne by exact Hne. exact H.
Qed.

Lemma lookup_append_lines_Some (si : nat) (kids : list Line.t) (ss : list Seed.t)
    (r : LineRef) (l : Line.t) :
  lookup_line ss r = Some l -> lookup_line (append_lines si kids ss) r = Some l.
Proof.
  intros H. apply lookup_line_Some in H as (s & Hs & Hl).
  apply lookup_line_Some. destruct (decide (r.1 = si)) as [E | E].
  - exists (Seed.set_lines (Seed.lines s ++ kids) s). split.
    + unfold append_lines. rewrite <- E, list_lookup_alter_eq, Hs. reflexivity.
    + simpl. apply lookup_app_l_Some, Hl.
  - exists s. split; [| exact Hl]. rewrite append_lines_seed_ne by exact E. exact Hs.
Qed.

Lemma lookup_append_lines_new (si : nat) (kids : list Line.t) (ss : list Seed.t)
    (r : LineRef) (k : Line.t) :
  lookup_line ss r = None ->
  lookup_line (append_lines si kids ss) r = Some k ->
  r.1 = si /\ k ∈ kids.
Proof.
  intros Hn H. apply lookup_line_Some in H as (s' & Hs' & Hl).
  destruct (decide (r.1 = si)) as [E | E].
  - split; [exact E |].
    unfold append_lines in Hs'. rewrite <- E, list_lookup_alter_eq in Hs'.
    unfold lookup_line in Hn.
    destruct (ss !! r.1) as [s |]; simpl in *; [| discriminate].
    inversion Hs'; subst s'. simpl in Hl.
    apply lookup_app_Some in Hl as [Hl | [_ Hl]]; [congruence |].
    eapply list_elem_of_lookup_2, Hl.
  - rewrite append_lines_seed_ne in Hs' by exact E.
    unfold lookup_line in Hn. rewrite Hs' in Hn. simpl in Hn. congruence.
Qed.

(** *** Counting active lines *)

Lemma active_in_cons (l : Line.t) (ls : list Line.t) :
  active_in (l :: ls) = b2z (Line.active l) + active_in ls.
Proof.
  unfold active_in. rewrite filter_cons.
  destruct (decide (Line.active l = true)) as [E | E].
  - rewrite E. simpl length. unfold b2z. lia.
  - apply not_true_is_false in E. rewrite E. unfold b2z. lia.
Qed.

Lemma active_in_app (l1 l2 : list Line.t) :
  active_in (l1 ++ l2) = active_in l1 + active_in l2.
Proof. unfold active_in. rewrite filter_app, length_app. lia. Qed.

Lemma active_in_insert (ls : list Line.t) :
  forall (i : nat) (l l' : Line.t),
    ls !! i = Some l ->
    active_in (<[i := l']> ls) = active_in ls - b2z (Line.active l) + b2z (Line.active l').
Proof.
  induction ls as [| x ls IH]; intros i l l' H; [discriminate |].
  destruct i as [| i]; simpl in H.
  - inversion H; subst.
    change (<[0%nat := l']> (l :: ls)) with (l' :: ls).
    rewrite !active_in_cons. lia.
  - change (<[S i := l']> (x :: ls)) with (x :: <[i := l']> ls).
    rewrite !active_in_cons, (IH i l l' H). lia.
Qed.

Lemma active_total_cons (s : Seed.t) (ss : list Seed.t) :
  active_total (s :: ss) = active_in (Seed.lines s) + active_total ss.
Proof. unfold active_total, count_active, active_in. simpl. lia. Qed.

Lemma active_total_alter (f : Seed.t -> Seed.t) (ss : list Seed.t) :
  forall (si : nat) (s : Seed.t),
    ss !! si = Some s ->
    active_total (alter f si ss) =
    active_total ss - active_in (Seed.lines s) + active_in (Seed.lines (f s)).
Proof.
  induction ss as [| x ss IH]; intros si s H; [discriminate |].
  destruct si as [| si]; simpl in H.
  - inversion H; subst.
    change (alter f 0%nat (s :: ss)) with (f s :: ss).
    rewrite !active_total_cons. lia.
  - change (alter f (S si) (x :: ss)) with (x :: alter f si ss).
    rewrite !active_total_cons, (IH si s H). lia.
Qed.

Lemma active_total_put_line (r : LineRef) (l l' : Line.t) (ss : list Seed.t) :
  lookup_line ss r = Some l ->
  active_total (put_line r l' ss) =
  active_total ss - b2z (Line.active l) + b2z (Line.active l').
Proof.
  intros H. apply lookup_line_Some in H as (s & Hs & Hl).
  unfold put_line. rewrite (active_total_alter _ _ _ s Hs). simpl.
  rewrite (active_in_insert _ _ l l' Hl). lia.
Qed.

Lemma active_total_append_lines (si : nat) (kids : list Line.t) (ss : list Seed.t) :
  (si < length ss)%nat ->
  active_total (append_lines si kids ss) = active_total ss + active_in kids.
Proof.
  intros H. apply lookup_lt_is_Some in H as [s Hs].
  unfold append_lines. rewrite (active_total_alter _ _ _ s Hs). simpl.
  rewrite active_in_app. lia.
Qed.
End Forest.

(** ** One line, one tick *)

Section Step.
Context `{N : JSNum} {T : JSMath N}.
Variable canvas : Canvas.
Variable config : Config.

Lemma forest_set_forest (ss : list Seed.t) (st : State) : forest (set_forest ss st) = ss.
Proof. reflexivity. Qed.

Lemma rnd_eq (a b : num) (st : State) :
  rnd a b st =
  ((randomFromSeed a b (rnd_seed st)).1,
   mkState _ (randomFromSeed a b (rnd_seed st)).2
     (draws st ++ [(randomFromSeed a b (rnd_seed st)).1]) (activeLineCount st) (seeds st)).
Proof. unfold rnd. destruct (randomFromSeed a b (rnd_seed st)); reflexivity. Qed.

Lemma rnd_seeds (a b : num) (st : State) : seeds (rnd a b st).2 = seeds st.
Proof. rewrite rnd_eq. reflexivity. Qed.

Lemma rnd_count (a b : num) (st : State) :
  activeLineCount (rnd a b st).2 = activeLineCount st.
Proof. rewrite rnd_eq. reflexivity. Qed.

Lemma Line_grow_eq (l : Line.t) (st : State) :
  Line_grow config l st =
  let st1 := (rnd0 st).2 in
  let l2 := Line.set_split (ltb (rnd0 st).1 (pBifurcation config)) (advanced l) in
  ((if ltb (rnd0 st1).1
          (mul (of_Z (Z.of_nat (Line.generation l2))) (expiryThreshold config))
    then Line.set_expired true l2 else l2),
   (rnd0 st1).2).
Proof.
  unfold Line_grow, bind, ret. destruct (rnd0 st) as [r1 st1]. simpl.
  destruct (rnd0 st1) as [r2 st2]. reflexivity.
Qed.

Lemma Line_grow_seeds (l : Line.t) (st : State) : seeds (Line_grow config l st).2 = seeds st.
Proof. rewrite Line_grow_eq. cbv zeta. cbn [snd]. unfold rnd0. rewrite !rnd_seeds. reflexivity. Qed.

Lemma Line_grow_count (l : Line.t) (st : State) :
  activeLineCount (Line_grow config l st).2 = activeLineCount st.
Proof. rewrite Line_grow_eq. cbv zeta. cbn [snd]. unfold rnd0. rewrite !rnd_count. reflexivity. Qed.

Lemma Line_grow_fields (l : Line.t) (st : State) :
  let g := (Line_grow config l st).1 in
  Line.steps g = S (Line.steps l)
  /\ Line.p0 g = Line.p0 l
  /\ Line.p1 g = Line.p1 (advanced l)
  /\ Line.angle g = Line.angle l
  /\ Line.generation g = Line.generation l
  /\ Line.parent g = Line.parent l
  /\ Line.active g = Line.active l
  /\ Line.rnd g = Line.rnd l
  /\ (Line.expired l = true -> Line.expired g = true).
Proof.
  rewrite Line_grow_eq. simpl.
  destruct (ltb _ _); simpl; repeat split; auto.
Qed.

Lemma buildLine_eq (p0 : Point.t) (angle : num) (parent : option Obj) (st : State) :
  buildLine config p0 angle parent st =
  Line_grow config
    (Line.mk _ p0 p0 angle
       (match parent with Some p => Line.generation p.2 + 1 | None => 0 end)%nat
       (fst <$> parent) true false false 0%nat (rnd0 st).1)
    (add_count 1 (rnd0 st).2).2.
Proof.
  unfold buildLine, bind. destruct (rnd0 st) as [tag st1]. reflexivity.
Qed.

Lemma buildLine_seeds (p0 : Point.t) (angle : num) (parent : option Obj) (st : State) :
  seeds (buildLine config p0 angle parent st).2 = seeds st.
Proof.
  rewrite buildLine_eq, Line_grow_seeds. unfold add_count. cbn [snd seeds]. unfold rnd0. apply rnd_seeds.
Qed.

Lemma buildLine_count (p0 : Point.t) (angle : num) (parent : option Obj) (st : State) :
  activeLineCount (buildLine config p0 angle parent st).2 = activeLineCount st + 1.
Proof.
  rewrite buildLine_eq, Line_grow_count. unfold add_count. cbn [snd activeLineCount].
  unfold rnd0. rewrite rnd_count. reflexivity.
Qed.

Lemma buildLine_fields (p0 : Point.t) (angle : num) (parent : option Obj) (st : State) :
  let b := (buildLine config p0 angle parent st).1 in
  Line.steps b = 1%nat
  /\ Line.active b = true
  /\ Line.p0 b = p0
  /\ Line.angle b = angle
  /\ Line.parent b = fst <$> parent
  /\ Line.generation b =
       (match parent with Some p => Line.generation p.2 + 1 | None => 0 end)%nat.
Proof.
  rewrite buildLine_eq.
  match goal with
  | |- context [Line_grow config ?l ?s] =>
      pose proof (Line_grow_fields l s) as (H1 & H2 & _ & H4 & H5 & H6 & H7 & _)
  end.
  simpl in *. repeat split; assumption.
Qed.

(** [growLine] with its sequencing written out. *)
Lemma growLine_unfold (si li : nat) (line : Line.t) (st : State) :
  lookup_line (forest st) (si, li) = Some line ->
  let grown := (Line_grow config line st).1 in
  let st2 := grown_state config si li line st in
  (growLine canvas config si li st).2 =
  if Line.expired grown then
    (add_count (-1) (store_line (si, li) (Line.set_active false grown) st2).2).2
  else if checkForCollisions canvas ((si, li), grown) (forEachLineUntilTrue config st2) then
    (add_count (-1)
       (store_line (si, li) (Line.set_active false (Line_clip grown)) st2).2).2
  else if Line.split grown then
    (push_line si (child_of config si li line st).1 (child_of config si li line st).2).2
  else st2.
Proof.
  intros H. unfold growLine. rewrite H.
  unfold child_of, child_angle, split_state, grown_state, bind, ret.
  destruct (Line_grow config line st) as [grown st1].
  unfold store_line, add_count, push_line. cbn [fst snd].
  destruct (Line.expired grown); [reflexivity |].
  destruct (checkForCollisions _ _ _); [reflexivity |].
  destruct (Line.split grown); [| reflexivity].
  match goal with |- context [rnd0 ?s] => destruct (rnd0 s) as [c st4] end.
  cbn [fst snd].
  match goal with |- context [buildLine ?a ?b ?c ?d ?e] => destruct (buildLine a b c d e) end.
  reflexivity.
Qed.
End Step.

Section StepFacts.
Context `{N : JSNum} {T : JSMath N}.
Variable canvas : Canvas.
Variable config : Config.

Lemma put_line_put_line (r : LineRef) (l1 l2 : Line.t) (ss : list Seed.t) :
  put_line r l2 (put_line r l1 ss) = put_line r l2 ss.
Proof.
  unfold put_line. rewrite list_alter_alter_eq. apply list_alter_ext; [| reflexivity].
  intros s _. simpl. unfold Seed.set_lines. simpl.
  rewrite list_insert_insert_eq. reflexivity.
Qed.

Lemma forest_seeds (st st' : State) : seeds st' = seeds st -> forest st' = forest st.
Proof. unfold forest. intros ->. reflexivity. Qed.

Lemma forest_rnd0 (st : State) : forest (rnd0 st).2 = forest st.
Proof. apply forest_seeds, rnd_seeds. Qed.

Lemma forest_Line_grow (l : Line.t) (st : State) :
  forest (Line_grow config l st).2 = forest st.
Proof. apply forest_seeds, Line_grow_seeds. Qed.

Lemma forest_buildLine (p0 : Point.t) (a : num) (parent : option Obj) (st : State) :
  forest (buildLine config p0 a parent st).2 = forest st.
Proof. apply forest_seeds, buildLine_seeds. Qed.

Lemma forest_grown_state (si li : nat) (line : Line.t) (st : State) :
  forest (grown_state config si li line st) =
  put_line (si, li) (Line_grow config line st).1 (forest st).
Proof.
  unfold grown_state, store_line. cbn [snd]. rewrite forest_set_forest, forest_Line_grow.
  reflexivity.
Qed.

Lemma count_grown_state (si li : nat) (line : Line.t) (st : State) :
  activeLineCount (grown_state config si li line st) = activeLineCount st.
Proof.
  unfold grown_state, store_line, set_forest. cbn [snd activeLineCount].
  apply Line_grow_count.
Qed.

Lemma forest_split_state (si li : nat) (line : Line.t) (st : State) :
  forest (split_state config si li line st) =
  put_line (si, li) (Line.set_split false (Line_grow config line st).1) (forest st).
Proof.
  unfold split_state, store_line. cbn [snd].
  rewrite forest_set_forest, forest_grown_state, put_line_put_line. reflexivity.
Qed.

Lemma count_split_state (si li : nat) (line : Line.t) (st : State) :
  activeLineCount (split_state config si li line st) = activeLineCount st.
Proof.
  unfold split_state, store_line, set_forest. cbn [snd activeLineCount].
  apply count_grown_state.
Qed.

Lemma forest_child_of (si li : nat) (line : Line.t) (st : State) :
  forest (child_of config si li line st).2 =
  put_line (si, li) (Line.set_split false (Line_grow config line st).1) (forest st).
Proof.
  unfold child_of. cbv zeta.
  rewrite forest_buildLine, forest_rnd0. apply forest_split_state.
Qed.

Lemma count_child_of (si li : nat) (line : Line.t) (st : State) :
  activeLineCount (child_of config si li line st).2 = activeLineCount st + 1.
Proof.
  unfold child_of. cbv zeta. rewrite buildLine_count. unfold rnd0.
  rewrite rnd_count, count_split_state. reflexivity.
Qed.

Lemma child_of_fields (si li : nat) (line : Line.t) (st : State) :
  let grown := (Line_grow config line st).1 in
  let child := (child_of config si li line st).1 in
  Line.steps child = 1%nat
  /\ Line.active child = true
  /\ Line.p0 child = Line.p1 grown
  /\ Line.angle child =
       child_angle grown (randomFromSeed (of_Z 1) (of_Z 0) (rnd_seed (Line_grow config line st).2)).1
  /\ Line.parent child = Some (si, li)
  /\ Line.generation child = S (Line.generation grown).
Proof.
  intros grown child. subst child. unfold child_of. cbv zeta.
  match goal with
  | |- context [buildLine config ?p ?a ?par ?s] =>
      pose proof (buildLine_fields config p a par s) as (H1 & H2 & H3 & H4 & H5 & H6)
  end.
  cbv zeta in *. rewrite H1, H2, H3, H4, H5, H6. clear H1 H2 H3 H4 H5 H6.
  fold grown. repeat split.
  - simpl. destruct (Line.p1 grown); reflexivity.
  - simpl. lia.
Qed.
(** The forest and the counter after [growLine], branch by branch. *)
Lemma growLine_branches (st : State) (si li : nat) (line : Line.t) :
  lookup_line (forest st) (si, li) = Some line ->
  let grown := (Line_grow config line st).1 in
  let st1 := (Line_grow config line st).2 in
  let st2 := grown_state config si li line st in
  let st' := (growLine canvas config si li st).2 in
  let collided :=
    checkForCollisions canvas ((si, li), grown) (forEachLineUntilTrue config st2) in
  (Line.expired grown = true ->
   forest st' = put_line (si, li) (Line.set_active false grown) (forest st)
   /\ activeLineCount st' = activeLineCount st - 1
   /\ rnd_seed st' = rnd_seed st1)
  /\ (Line.expired grown = false -> collided = true ->
      forest st' =
        put_line (si, li) (Line.set_active false (Line_clip grown)) (forest st)
      /\ activeLineCount st' = activeLineCount st - 1
      /\ rnd_seed st' = rnd_seed st1)
  /\ (Line.expired grown = false -> collided = false -> Line.split grown = true ->
      forest st' =
        append_line si (child_of config si li line st).1
          (put_line (si, li) (Line.set_split false grown) (forest st))
      /\ activeLineCount st' = activeLineCount st + 1)
  /\ (Line.expired grown = false -> collided = false -> Line.split grown = false ->
      forest st' = put_line (si, li) grown (forest st)
      /\ activeLineCount st' = activeLineCount st
      /\ rnd_seed st' = rnd_seed st1).
Proof.
  intros Hl grown st1 st2 st' collided.
  pose proof (growLine_unfold canvas config si li line st Hl) as E.
  cbv zeta in E. fold grown st2 collided st' in E.
  assert (F2 : forest st2 = put_line (si, li) grown (forest st))
    by apply forest_grown_state.
  assert (C2 : activeLineCount st2 = activeLineCount st)
    by apply count_grown_state.
  assert (R2 : rnd_seed st2 = rnd_seed st1) by reflexivity.
  split; [| split; [| split]].
  - intros He. rewrite He in E. rewrite E.
    unfold add_count, store_line, set_forest. cbn [snd forest seeds activeLineCount rnd_seed].
    cbn [default]. fold (forest st2). rewrite F2, put_line_put_line, C2, R2.
    repeat split; lia.
  - intros He Hc. rewrite He, Hc in E. rewrite E.
    unfold add_count, store_line, set_forest. cbn [snd forest seeds activeLineCount rnd_seed].
    cbn [default]. fold (forest st2). rewrite F2, put_line_put_line, C2, R2.
    repeat split; lia.
  - intros He Hc Hsp. rewrite He, Hc, Hsp in E.
    rewrite E. unfold push_line, set_forest.
    cbn [snd forest seeds activeLineCount rnd_seed default].
    fold (forest (child_of config si li line st).2).
    rewrite forest_child_of, count_child_of. fold grown.
    split; reflexivity.
  - intros He Hc Hsp. rewrite He, Hc, Hsp in E. rewrite E. auto.
Qed.
End StepFacts.



(** ** The effect of a tick on the forest *)

Section Tick.
Context `{N : JSNum} {T : JSMath N}.
Variable canvas : Canvas.
Variable config : Config.

(** What [growLine] does to the forest and to the counter, whatever the
    branch taken: the line is replaced, and at most one child is pushed. *)
Lemma growLine_effect (st : State) (si li : nat) (line : Line.t) :
  lookup_line (forest st) (si, li) = Some line ->
  exists (line' : Line.t) (kids : list Line.t),
    forest (growLine canvas config si li st).2 =
      append_lines si kids (put_line (si, li) line' (forest st))
    /\ Line.steps line' = S (Line.steps line)
    /\ Forall (fun k => Line.steps k = 1%nat /\ Line.active k = true
                        /\ Line.parent k = Some (si, li)) kids
    /\ (Line.active line = true ->
        activeLineCount (growLine canvas config si li st).2 =
        activeLineCount st + active_in kids + b2z (Line.active line') - 1).
Proof.
  intros Hl.
  pose proof (growLine_branches canvas config st si li line Hl) as (HA & HB & HC & HD).
  pose proof (Line_grow_fields config line st) as (Hs & _ & _ & _ & _ & _ & Hact & _).
  cbv zeta in *.
  set (grown := (Line_grow config line st).1) in *.
  destruct (Line.expired grown) eqn:He.
  { destruct (HA eq_refl) as (F & C & _).
    exists (Line.set_active false grown), []. rewrite append_lines_nil.
    repeat split; auto. intros _. rewrite C. unfold active_in, b2z. simpl. lia. }
  destruct (checkForCollisions canvas (si, li, grown)
              (forEachLineUntilTrue config (grown_state config si li line st))) eqn:Hc.
  { destruct (HB eq_refl eq_refl) as (F & C & _).
    exists (Line.set_active false (Line_clip grown)), []. rewrite append_lines_nil.
    repeat split; auto. intros _. rewrite C. unfold active_in, b2z. simpl. lia. }
  destruct (Line.split grown) eqn:Hsp.
  - destruct (HC eq_refl eq_refl eq_refl) as (F & C).
    pose proof (child_of_fields config si li line st) as (K1 & K2 & _ & _ & K5 & _).
    cbv zeta in K1, K2, K5.
    exists (Line.set_split false grown), [(child_of config si li line st).1].
    rewrite <- append_line_lines.
    repeat split; auto.
    intros Ha. rewrite C. unfold active_in. rewrite filter_cons.
    destruct (decide (Line.active (child_of config si li line st).1 = true));
      [| contradiction].
    simpl. rewrite Hact, Ha. unfold b2z. lia.
  - destruct (HD eq_refl eq_refl eq_refl) as (F & C & _).
    exists grown, []. rewrite append_lines_nil.
    repeat split; auto. intros Ha. rewrite C, Hact, Ha. unfold active_in, b2z. simpl. lia.
Qed.

Lemma stepped_nil (st : State) : stepped [] st st.
Proof.
  unfold stepped. split; [| split; [| split; [| split]]].
  - reflexivity.
  - reflexivity.
  - intros r l H. exists l. split; [exact H |]. split; [| reflexivity].
    intros Hin. inversion Hin.
  - intros r k H1 H2. congruence.
  - reflexivity.
Qed.

Lemma stepped_growLine (st : State) (si li : nat) (line : Line.t) :
  lookup_line (forest st) (si, li) = Some line ->
  stepped [(si, li)] st (growLine canvas config si li st).2.
Proof.
  intros Hl. destruct (growLine_effect st si li line Hl) as (line' & kids & F & Hs & Hk & Hc).
  assert (Hlen : (si < length (forest st))%nat).
  { apply lookup_line_Some in Hl as (s & Hs' & _). eapply lookup_lt_Some, Hs'. }
  unfold stepped. rewrite F. split; [| split; [| split; [| split]]].
  - rewrite length_append_lines, length_put_line. reflexivity.
  - intros sj Hsj. assert (sj <> si) by (intros ->; apply Hsj; simpl; left).
    rewrite append_lines_seed_ne, put_line_seed_ne by assumption. reflexivity.
  - intros r l Hr. destruct (decide (r = (si, li))) as [-> | Hne].
    + exists line'. split.
      * apply lookup_append_lines_Some. eapply lookup_put_line_eq, Hl.
      * split; [intros _; congruence |]. intros Hn. exfalso. apply Hn. left.
    + exists l. split.
      * apply lookup_append_lines_Some. rewrite lookup_put_line_ne by exact Hne. exact Hr.
      * split; [| reflexivity]. intros Hin. apply list_elem_of_singleton in Hin. contradiction.
  - intros r k Hn Hk'.
    apply (lookup_put_line_None (si, li) r line') in Hn.
    destruct (lookup_append_lines_new _ _ _ _ _ Hn Hk') as [_ Hin].
    rewrite Forall_forall in Hk. destruct (Hk k Hin) as (K1 & K2 & K3).
    split; [exact K1 |]. split; [exact K2 |]. exists (si, li). split; [exact K3 | left].
  - intros Hall. specialize (Hc (Hall (si, li) line ltac:(left) Hl)).
    rewrite Hc, active_total_append_lines by (rewrite length_put_line; exact Hlen).
    rewrite (active_total_put_line _ line line' _ Hl).
    rewrite (Hall (si, li) line ltac:(left) Hl). unfold b2z at 2. lia.
Qed.

Lemma stepped_exists (D : list LineRef) (st st' : State) (r : LineRef) :
  stepped D st st' ->
  is_Some (lookup_line (forest st) r) -> is_Some (lookup_line (forest st') r).
Proof.
  intros (_ & _ & H & _) [l Hl]. destruct (H r l Hl) as (l' & Hl' & _). eauto.
Qed.

Lemma stepped_app (D1 D2 : list LineRef) (st st1 st2 : State) :
  stepped D1 st st1 -> stepped D2 st1 st2 ->
  (forall r, r ∈ D2 -> is_Some (lookup_line (forest st) r)) ->
  (forall r, r ∈ D1 -> r ∉ D2) ->
  stepped (D1 ++ D2) st st2.
Proof.
  intros (L1 & S1 & E1 & N1 & C1) (L2 & S2 & E2 & N2 & C2) Hex Hdis.
  unfold stepped. split; [| split; [| split; [| split]]].
  - congruence.
  - intros sj Hsj. rewrite fmap_app, elem_of_app in Hsj.
    rewrite S2, S1 by tauto. reflexivity.
  - intros r l Hr. destruct (E1 r l Hr) as (l1 & Hl1 & A1 & B1).
    destruct (E2 r l1 Hl1) as (l2 & Hl2 & A2 & B2).
    exists l2. split; [exact Hl2 |]. split.
    + intros Hin. apply elem_of_app in Hin.
      destruct (decide (r ∈ D1)) as [H1 | H1].
      * rewrite (B2 (Hdis r H1)). apply A1, H1.
      * destruct Hin as [? | H2]; [contradiction |].
        rewrite (A2 H2), (B1 H1). reflexivity.
    + intros Hn. rewrite elem_of_app in Hn.
      rewrite B2, B1 by tauto. reflexivity.
  - intros r k Hn Hk. destruct (lookup_line (forest st1) r) as [k1 |] eqn:Hk1.
    + destruct (N1 r k1 Hn Hk1) as (K1 & K2 & p & K3 & K4).
      assert (Hr2 : r ∉ D2).
      { intros Hin. destruct (Hex r Hin) as [x Hx]. congruence. }
      destruct (E2 r k1 Hk1) as (k2 & Hk2 & _ & B2).
      rewrite (B2 Hr2) in Hk2. assert (k = k1) by congruence. subst k.
      split; [exact K1 |]. split; [exact K2 |]. exists p. split; [exact K3 |].
      apply elem_of_app. left. exact K4.
    + destruct (N2 r k Hk1 Hk) as (K1 & K2 & p & K3 & K4).
      split; [exact K1 |]. split; [exact K2 |]. exists p. split; [exact K3 |].
      apply elem_of_app. right. exact K4.
  - intros Hall. rewrite C2, C1; [reflexivity | |].
    + intros r l Hin Hl. apply (Hall r l); [apply elem_of_app; left; exact Hin | exact Hl].
    + intros r l1 Hin Hl1. destruct (Hex r Hin) as [l Hl].
      destruct (E1 r l Hl) as (l1' & Hl1' & _ & B1).
      assert (Hn1 : r ∉ D1) by (intros H1; exact (Hdis r H1 Hin)).
      rewrite (B1 Hn1) in Hl1'. assert (l1 = l) by congruence. subst l1.
      apply (Hall r l); [apply elem_of_app; right; exact Hin | exact Hl].
Qed.
End Tick.

Section WholeTick.
Context `{N : JSNum} {T : JSMath N}.
Variable canvas : Canvas.
Variable config : Config.

Lemma for_each_cons {A : Type} (f : A -> M unit) (a : A) (l : list A) (st : State) :
  (for_each f (a :: l) st).2 = (for_each f l (f a st).2).2.
Proof. simpl. unfold bind. destruct (f a st). reflexivity. Qed.

Lemma active_from_elem (ls : list Line.t) :
  forall i j,
    j ∈ active_from i ls <->
    (i <= j)%nat /\ exists l, ls !! (j - i)%nat = Some l /\ Line.active l = true.
Proof.
  induction ls as [| x ls IH]; intros i j; simpl.
  - rewrite elem_of_nil. split; [tauto |]. intros (_ & l & H & _). discriminate.
  - assert (Hrec : j ∈ active_from (S i) ls <->
                   (i < j)%nat /\ exists l, (x :: ls) !! (j - i)%nat = Some l
                                            /\ Line.active l = true).
    { rewrite IH. split.
      - intros (H1 & l & H2 & H3). split; [lia |]. exists l. split; [| exact H3].
        replace (j - i)%nat with (S (j - S i)) by lia. exact H2.
      - intros (H1 & l & H2 & H3). split; [lia |]. exists l. split; [| exact H3].
        replace (j - i)%nat with (S (j - S i)) in H2 by lia. exact H2. }
    destruct (Line.active x) eqn:Ex.
    + rewrite elem_of_cons, Hrec. split.
      * intros [-> | (H1 & H2)].
        -- split; [lia |]. exists x. rewrite Nat.sub_diag. auto.
        -- split; [lia | exact H2].
      * intros (H1 & H2). destruct (decide (j = i)) as [-> | Hne]; [left; reflexivity |].
        right. split; [lia | exact H2].
    + rewrite Hrec. split.
      * intros (H1 & H2). split; [lia | exact H2].
      * intros (H1 & l & H2 & H3). destruct (decide (j = i)) as [-> | Hne].
        -- rewrite Nat.sub_diag in H2. simpl in H2. congruence.
        -- split; [lia |]. eauto.
Qed.

Lemma active_from_NoDup (ls : list Line.t) : forall i, NoDup (active_from i ls).
Proof.
  induction ls as [| x ls IH]; intros i; simpl; [constructor |].
  destruct (Line.active x); [| apply IH].
  constructor; [| apply IH].
  rewrite active_from_elem. intros [H _]. lia.
Qed.

Lemma snapshot_elem (st : State) (si : nat) (r : LineRef) :
  r ∈ snapshot st si <->
  r.1 = si /\ exists l, lookup_line (forest st) r = Some l /\ Line.active l = true.
Proof.
  unfold snapshot, lookup_line. destruct r as [a b]. simpl.
  destruct (forest st !! si) as [s |] eqn:Es.
  - rewrite list_elem_of_fmap. split.
    + intros (j & E & Hj). inversion E; subst a b.
      apply active_from_elem in Hj as (_ & l & Hl & Ha). rewrite Nat.sub_0_r in Hl.
      split; [reflexivity |]. rewrite Es. simpl. eauto.
    + intros (-> & l & Hl & Ha). rewrite Es in Hl. simpl in Hl.
      exists b. split; [reflexivity |]. apply active_from_elem.
      split; [lia |]. rewrite Nat.sub_0_r. eauto.
  - rewrite elem_of_nil. split; [tauto |].
    intros (-> & l & Hl & _). rewrite Es in Hl. discriminate.
Qed.

Lemma snapshot_same (st st' : State) (si : nat) :
  forest st' !! si = forest st !! si -> snapshot st' si = snapshot st si.
Proof. unfold snapshot. intros ->. reflexivity. Qed.

Lemma stepped_lines (si : nat) (lis : list nat) :
  forall st,
    NoDup lis ->
    (forall li, li ∈ lis -> is_Some (lookup_line (forest st) (si, li))) ->
    stepped (pair si <$> lis) st (for_each (growLine canvas config si) lis st).2.
Proof.
  induction lis as [| li lis IH]; intros st Hnd Hex.
  - apply stepped_nil.
  - rewrite for_each_cons. apply NoDup_cons in Hnd as [Hni Hnd].
    destruct (Hex li ltac:(left)) as [line Hl].
    pose proof (stepped_growLine canvas config st si li line Hl) as H1.
    change (pair si <$> li :: lis) with ([(si, li)] ++ (pair si <$> lis)).
    eapply stepped_app; [exact H1 | apply IH | |].
    + exact Hnd.
    + intros li' Hin. eapply stepped_exists; [exact H1 |]. apply Hex. right. exact Hin.
    + intros r Hin. apply list_elem_of_fmap in Hin as (li' & -> & Hin).
      apply Hex. right. exact Hin.
    + intros r Hin Hin2. apply list_elem_of_singleton in Hin. subst r.
      apply list_elem_of_fmap in Hin2 as (li' & E & Hin2). inversion E; subst li'.
      contradiction.
Qed.

Lemma stepped_Seed_grow (si : nat) (st : State) :
  stepped (snapshot st si) st (Seed_grow canvas config si st).2.
Proof.
  unfold Seed_grow, snapshot. destruct (forest st !! si) as [s |] eqn:Es.
  - apply stepped_lines; [apply active_from_NoDup |].
    intros li Hin. apply active_from_elem in Hin as (_ & l & Hl & _).
    rewrite Nat.sub_0_r in Hl. exists l. apply lookup_line_Some. eauto.
  - apply stepped_nil.
Qed.

Lemma snapshots_elem (st : State) (sis : list nat) (r : LineRef) :
  r ∈ snapshots st sis <->
  r.1 ∈ sis /\ exists l, lookup_line (forest st) r = Some l /\ Line.active l = true.
Proof.
  unfold snapshots. rewrite list_elem_of_bind. split.
  - intros (si & Hin & Hsi). apply snapshot_elem in Hin as (<- & H). auto.
  - intros (Hin & H). exists r.1. split; [| exact Hin]. apply snapshot_elem. auto.
Qed.

Lemma stepped_seeds (sis : list nat) :
  forall st,
    NoDup sis ->
    stepped (snapshots st sis) st (for_each (Seed_grow canvas config) sis st).2.
Proof.
  induction sis as [| si sis IH]; intros st Hnd.
  - apply stepped_nil.
  - rewrite for_each_cons. apply NoDup_cons in Hnd as [Hni Hnd].
    pose proof (stepped_Seed_grow si st) as H1.
    set (st1 := (Seed_grow canvas config si st).2) in *.
    assert (Hsame : snapshots st1 sis = snapshots st sis).
    { unfold snapshots. apply Forall_bind_ext, Forall_forall.
      intros sj Hsj. apply snapshot_same.
      destruct H1 as (_ & S1 & _). apply S1.
      intros Hin. apply list_elem_of_fmap in Hin as (r & -> & Hr).
      apply snapshot_elem in Hr as [E _]. rewrite E in Hsj. contradiction. }
    change (snapshots st (si :: sis)) with (snapshot st si ++ snapshots st sis).
    rewrite <- Hsame.
    eapply stepped_app; [exact H1 | apply IH, Hnd | |].
    + intros r Hin. rewrite Hsame in Hin.
      apply snapshots_elem in Hin as (_ & l & Hl & _). eauto.
    + intros r Hin Hin2. rewrite Hsame in Hin2.
      apply snapshot_elem in Hin as [E _]. apply snapshots_elem in Hin2 as [E2 _].
      rewrite E in E2. contradiction.
Qed.

Lemma active_refs_elem (st : State) (r : LineRef) :
  r ∈ active_refs st <->
  exists l, lookup_line (forest st) r = Some l /\ Line.active l = true.
Proof.
  unfold active_refs. rewrite snapshots_elem. split; [tauto |].
  intros (l & Hl & Ha). split; [| eauto].
  apply lookup_line_Some in Hl as (s & Hs & _).
  apply elem_of_seq. split; [lia |]. simpl. eapply lookup_lt_Some, Hs.
Qed.

(** A call of [grow] visits exactly the lines that were active when it
    started. *)
Lemma grow_stepped (st st' : State) :
  grow canvas config st = Ok st' -> stepped (active_refs st) st st'.
Proof.
  unfold grow. destruct (seeds st) as [ss |] eqn:Es; [| discriminate].
  intros E. inversion E; subst st'. clear E.
  unfold active_refs, forest. rewrite Es. simpl default.
  apply stepped_seeds, NoDup_seq.
Qed.

Lemma grow_Ok (st : State) :
  is_Some (seeds st) -> exists st', grow canvas config st = Ok st'.
Proof. intros [ss Es]. unfold grow. rewrite Es. eauto. Qed.

Lemma grow_seeds (st st' : State) :
  grow canvas config st = Ok st' -> is_Some (seeds st').
Proof.
  intros H. pose proof (grow_stepped st st' H) as (L & _).
  unfold grow in H. destruct (seeds st) as [ss |] eqn:Es; [| discriminate].
  destruct (seeds st') as [ss' |] eqn:Es'; [eauto |].
  exfalso. inversion H as [E]. clear H.
  destruct ss as [| s ss].
  - simpl in E. subst st'. congruence.
  - unfold forest in L. rewrite Es, Es' in L. discriminate.
Qed.
End WholeTick.

(** ** [generate] and the roots *)

Section Generate.
Context `{N : JSNum} {T : JSMath N}.
Variable canvas : Canvas.
Variable config : Config.

Lemma buildSeed_spec (st : State) :
  seeds (buildSeed canvas config st).2 = seeds st
  /\ activeLineCount (buildSeed canvas config st).2 = activeLineCount st + 1
  /\ exists root, Seed.lines (buildSeed canvas config st).1 = [root] /\ fresh_root root.
Proof.
  unfold buildSeed, bind, ret.
  pose proof (rnd_seeds (of_Z 0) (mul Math_PI (of_Z 2)) st) as S1.
  pose proof (rnd_count (of_Z 0) (mul Math_PI (of_Z 2)) st) as C1.
  destruct (rnd (of_Z 0) (mul Math_PI (of_Z 2)) st) as [a st1].
  pose proof (rnd_seeds (of_Z 0) (width canvas) st1) as S2.
  pose proof (rnd_count (of_Z 0) (width canvas) st1) as C2.
  destruct (rnd (of_Z 0) (width canvas) st1) as [x st2].
  pose proof (rnd_seeds (of_Z 0) (height canvas) st2) as S3.
  pose proof (rnd_count (of_Z 0) (height canvas) st2) as C3.
  destruct (rnd (of_Z 0) (height canvas) st2) as [y st3].
  pose proof (buildLine_seeds config (Point.mk _ x y) a None st3) as Hs.
  pose proof (buildLine_count config (Point.mk _ x y) a None st3) as Hc.
  pose proof (buildLine_fields config (Point.mk _ x y) a None st3)
    as (F1 & F2 & _ & _ & F5 & F6).
  destruct (buildLine config (Point.mk _ x y) a None st3) as [root st4].
  cbn [fst snd] in *.
  split; [congruence |]. split; [lia |].
  exists root. split; [reflexivity |]. repeat split; assumption.
Qed.

Lemma array_map_buildSeed (arr : list unit) :
  forall st,
    let r := array_map (fun _ => buildSeed canvas config) arr st in
    seeds r.2 = seeds st
    /\ activeLineCount r.2 = activeLineCount st + Z.of_nat (length arr)
    /\ length r.1 = length arr
    /\ Forall (fun s => exists root, Seed.lines s = [root] /\ fresh_root root) r.1.
Proof.
  induction arr as [| u arr IH]; intros st; simpl.
  - repeat split; [lia | constructor].
  - unfold bind, ret.
    pose proof (buildSeed_spec st) as (S1 & C1 & R1).
    destruct (buildSeed canvas config st) as [s st1]. cbn [fst snd] in *.
    specialize (IH st1). cbv zeta in IH.
    destruct (array_map (fun _ => buildSeed canvas config) arr st1) as [ss st2].
    cbn [fst snd] in *. destruct IH as (S2 & C2 & L2 & R2).
    split; [congruence |]. split; [lia |]. split; [simpl; lia |].
    constructor; assumption.
Qed.

Lemma active_total_roots (ss : list Seed.t) :
  Forall (fun s => exists root, Seed.lines s = [root] /\ fresh_root root) ss ->
  active_total ss = Z.of_nat (length ss).
Proof.
  induction 1 as [| s ss (root & E & _ & Ha & _) _ IH].
  - reflexivity.
  - rewrite active_total_cons, IH, E, active_in_cons, Ha. unfold active_in, b2z.
    simpl. lia.
Qed.

(** [generate] on any state: the forest is replaced by new roots and the
    counter goes up by their number. *)
Lemma generate_spec (st st' : State) :
  generate canvas config st = Ok st' ->
  exists ss,
    seeds st' = Some ss
    /\ Forall (fun s => exists root, Seed.lines s = [root] /\ fresh_root root) ss
    /\ activeLineCount st' = activeLineCount st + active_total ss
    /\ Z.of_nat (length ss) = seedCount config.
Proof.
  unfold generate, js_Array.
  destruct ((0 <=? seedCount config) && (seedCount config <? 4294967296)) eqn:Hr;
    [| discriminate].
  apply andb_true_iff in Hr as [Hr _]. apply Z.leb_le in Hr.
  pose proof (array_map_buildSeed (replicate (Z.to_nat (seedCount config)) tt) st) as H.
  cbv zeta in H.
  destruct (array_map (fun _ => buildSeed canvas config)
              (replicate (Z.to_nat (seedCount config)) tt) st) as [ss st1].
  cbn [fst snd] in H. destruct H as (S1 & C1 & L1 & R1).
  rewrite length_replicate in C1, L1.
  intros E. inversion E; subst st'. exists ss.
  split; [reflexivity |]. split; [exact R1 |].
  rewrite (active_total_roots ss R1). cbn [activeLineCount set_forest].
  split; lia.
Qed.

Lemma generate_Ok (st : State) :
  0 <= seedCount config < 4294967296 ->
  exists st', generate canvas config st = Ok st'.
Proof.
  intros [H1 H2]. unfold generate, js_Array.
  apply Z.leb_le in H1. apply Z.ltb_lt in H2. rewrite H1, H2. simpl.
  destruct (array_map _ _ st). eauto.
Qed.

Lemma generate_Throw (st : State) (e : JsError) :
  generate canvas config st = Throw e ->
  ~ (0 <= seedCount config < 4294967296) /\ e = RangeError.
Proof.
  unfold generate, js_Array.
  destruct ((0 <=? seedCount config) && (seedCount config <? 4294967296)) eqn:Hr.
  - destruct (array_map _ _ st). discriminate.
  - intros E. inversion E. split; [| reflexivity].
    intros [H1 H2]. apply Z.leb_le in H1. apply Z.ltb_lt in H2.
    rewrite H1, H2 in Hr. discriminate.
Qed.
End Generate.

(** ** The counter of active lines *)

Section Counter.
Context `{N : JSNum} {T : JSMath N}.
Variable canvas : Canvas.
Variable config : Config.

Lemma grow_counter_ok (st st' : State) :
  grow canvas config st = Ok st' -> counter_ok st -> counter_ok st'.
Proof.
  intros Hg Hc. pose proof (grow_stepped canvas config st st' Hg) as (_ & _ & _ & _ & C).
  unfold counter_ok in *. enough (activeLineCount st' - active_total (forest st') = 0) by lia.
  rewrite C; [lia |].
  intros r l Hin Hl. apply active_refs_elem in Hin as (l' & Hl' & Ha). congruence.
Qed.

Lemma generate_counter_ok (st st' : State) :
  generate canvas config st = Ok st' -> activeLineCount st = 0 -> counter_ok st'.
Proof.
  intros Hg H0. destruct (generate_spec canvas config st st' Hg) as (ss & Hs & _ & Hc & _).
  unfold counter_ok, forest. rewrite Hs, Hc, H0. simpl. lia.
Qed.

Lemma calls_counter_ok (cs : list call) :
  forall st,
    (seeds st = None /\ activeLineCount st = 0 /\ (generate_calls cs <= 1)%nat)
    \/ (is_Some (seeds st) /\ counter_ok st /\ generate_calls cs = 0%nat) ->
    counter_ok (foldl (do_call canvas config) st cs).
Proof.
  induction cs as [| c cs IH]; intros st H; simpl.
  - destruct H as [(Hs & H0 & _) | (_ & H & _)]; [| exact H].
    unfold counter_ok, forest. rewrite Hs, H0. reflexivity.
  - apply IH. destruct c; simpl in H |- *.
    + destruct H as [(Hs & H0 & Hg) | (_ & _ & Hg)]; [| discriminate].
      destruct (generate canvas config st) as [st' |] eqn:Eg.
      * right. destruct (generate_spec canvas config st st' Eg) as (ss & Hs' & _).
        split; [rewrite Hs'; eauto |]. split; [| lia].
        eapply generate_counter_ok; eauto.
      * left. repeat split; auto. lia.
    + destruct H as [(Hs & H0 & Hg) | (Hs & Hc & Hg)].
      * unfold grow. rewrite Hs. left. auto.
      * destruct (grow_Ok canvas config st Hs) as [st' Eg]. rewrite Eg.
        right. split; [eapply grow_seeds, Eg |]. split; [| exact Hg].
        eapply grow_counter_ok; eauto.
Qed.

End Counter.




(** ** Which lines a tick grows *)

Section Visits.
Context `{N : JSNum} {T : JSMath N}.
Variable canvas : Canvas.
Variable config : Config.

(** Lines that exist when the tick starts. *)
Lemma grow_old_lines (st st' : State) (r : LineRef) (l : Line.t) :
  grow canvas config st = Ok st' ->
  lookup_line (forest st) r = Some l ->
  exists l', lookup_line (forest st') r = Some l'
             /\ (Line.active l = true -> Line.steps l' = S (Line.steps l))
             /\ (Line.active l = false -> l' = l).
Proof.
  intros Hg Hl. pose proof (grow_stepped canvas config st st' Hg) as (_ & _ & E & _).
  destruct (E r l Hl) as (l' & Hl' & A & B). exists l'. split; [exact Hl' |]. split.
  - intros Ha. apply A, active_refs_elem. eauto.
  - intros Ha. apply B. intros Hin. apply active_refs_elem in Hin as (l0 & Hl0 & Ha0).
    congruence.
Qed.

(** Lines that appear during the tick. *)
Lemma grow_new_lines (st st' : State) (r : LineRef) (k : Line.t) :
  grow canvas config st = Ok st' ->
  lookup_line (forest st) r = None ->
  lookup_line (forest st') r = Some k ->
  Line.steps k = 1%nat /\ Line.active k = true
  /\ exists p lp, Line.parent k = Some p
                  /\ lookup_line (forest st) p = Some lp /\ Line.active lp = true.
Proof.
  intros Hg Hn Hk. pose proof (grow_stepped canvas config st st' Hg) as (_ & _ & _ & E & _).
  destruct (E r k Hn Hk) as (K1 & K2 & p & K3 & Hin).
  apply active_refs_elem in Hin as (lp & Hlp & Ha).
  split; [exact K1 |]. split; [exact K2 |]. exists p, lp. auto.
Qed.

Lemma grows_S (k : nat) (st st' : State) :
  grows canvas config (S k) st = Ok st' ->
  exists st1, grow canvas config st = Ok st1 /\ grows canvas config k st1 = Ok st'.
Proof.
  simpl. destruct (grow canvas config st) as [st1 |]; [eauto | discriminate].
Qed.

Lemma grows_steps (k : nat) :
  forall (st st' : State) (r : LineRef) (l : Line.t),
    grows canvas config k st = Ok st' ->
    lookup_line (forest st) r = Some l ->
    (forall i sti li, (i < k)%nat -> grows canvas config i st = Ok sti ->
                      lookup_line (forest sti) r = Some li -> Line.active li = true) ->
    exists l', lookup_line (forest st') r = Some l'
               /\ Line.steps l' = (Line.steps l + k)%nat.
Proof.
  induction k as [| k IH]; intros st st' r l Hg Hl Hact.
  - simpl in Hg. inversion Hg; subst st'. exists l. split; [exact Hl | lia].
  - apply grows_S in Hg as (st1 & Hg1 & Hg).
    assert (Ha : Line.active l = true).
    { apply (Hact 0%nat st l); [lia | reflexivity | exact Hl]. }
    destruct (grow_old_lines st st1 r l Hg1 Hl) as (l1 & Hl1 & Hs & _).
    destruct (IH st1 st' r l1 Hg Hl1) as (l' & Hl' & Hs').
    + intros i sti li Hi Hgi Hli. apply (Hact (S i) sti li); [lia | | exact Hli].
      simpl. rewrite Hg1. exact Hgi.
    + exists l'. split; [exact Hl' |]. rewrite Hs', (Hs Ha). lia.
Qed.

Lemma generate_steps (st st' : State) (r : LineRef) (l : Line.t) :
  generate canvas config st = Ok st' ->
  lookup_line (forest st') r = Some l ->
  Line.steps l = 1%nat /\ Line.active l = true.
Proof.
  intros Hg Hl. destruct (generate_spec canvas config st st' Hg) as (ss & Hs & Hr & _).
  unfold forest in Hl. rewrite Hs in Hl. simpl in Hl.
  apply lookup_line_Some in Hl as (s & Hsi & Hli).
  rewrite Forall_forall in Hr.
  destruct (Hr s) as (root & E & F1 & F2 & _); [eapply list_elem_of_lookup_2, Hsi |].
  rewrite E in Hli. destruct r.2 as [| n]; simpl in Hli; [| discriminate].
  inversion Hli; subst. auto.
Qed.
End Visits.

(** C3, as the code has it.  In a call of the model's [grow()], the
    lines the tick grows are exactly those whose active flag was set
    when the call started, each once: their step count goes up by one,
    and the lines that were inactive are left as they were.  A child
    spawned during the tick has been grown once, by its own creation
    (step count 1); the tick does not visit it: at the end of the call
    it is still active and its parent is a line that was already there,
    and active, when the call started. *)
Theorem grow_visits_snapshot `{N : JSNum} {T : JSMath N}
    (canvas : Canvas) (config : Config) (st st' : State) :
  grow canvas config st = Ok st' ->
  (forall r l, lookup_line (forest st) r = Some l ->
     exists l', lookup_line (forest st') r = Some l'
                /\ (Line.active l = true -> Line.steps l' = S (Line.steps l))
                /\ (Line.active l = false -> l' = l))
  /\ (forall r k, lookup_line (forest st) r = None ->
      lookup_line (forest st') r = Some k ->
      Line.steps k = 1%nat /\ Line.active k = true
      /\ exists p lp, Line.parent k = Some p
                      /\ lookup_line (forest st) p = Some lp /\ Line.active lp = true).
Proof.
  intros Hg. split.
  - intros r l Hl. eapply grow_old_lines; eauto.
  - intros r k Hn Hk. eapply grow_new_lines; eauto.
Qed.

Lemma grow_visits_snapshot_witness :
  (forall r l, lookup_line (forest demo_start) r = Some l ->
     exists l', lookup_line (forest demo_tick) r = Some l'
                /\ (Line.active l = true -> Line.steps l' = S (Line.steps l))
                /\ (Line.active l = false -> l' = l))
  /\ (forall r k, lookup_line (forest demo_start) r = None ->
      lookup_line (forest demo_tick) r = Some k ->
      Line.steps k = 1%nat /\ Line.active k = true
      /\ exists p lp, Line.parent k = Some p
                      /\ lookup_line (forest demo_start) p = Some lp
                      /\ Line.active lp = true).
Proof.
  apply (grow_visits_snapshot demo_canvas demo_config demo_start demo_tick).
  vm_compute. reflexivity.
Defined.

(** C3 as stated fails: the method [grow] of a line is also called on
    every child spawned during the tick, by [buildLine].  From
    [demo_start], where one line is active, the tick makes two such
    calls, not one: the child at slot (0, 1) did not exist before, and at
    the end of the tick it has one step, a tip away from its origin, and
    its split flag drawn. *)
Lemma grow_visits_snapshot_counterexample :
  grow demo_canvas demo_config demo_start = Ok demo_tick
  /\ count_active (forest demo_start) = 1%nat
  /\ total_steps (forest demo_tick) = (total_steps (forest demo_start) + 2)%nat
  /\ lookup_line (forest demo_start) (0, 1)%nat = None
  /\ exists k, lookup_line (forest demo_tick) (0, 1)%nat = Some k
               /\ Line.steps k = 1%nat
               /\ Line.p1 k <> Line.p0 k
               /\ Line.split k = true.
Proof.
  split; [vm_compute; reflexivity |].
  split; [vm_compute; reflexivity |].
  split; [vm_compute; reflexivity |].
  split; [vm_compute; reflexivity |].
  eexists. split; [vm_compute; reflexivity |].
  split; [reflexivity |]. split; [| reflexivity].
  vm_compute. intros H. inversion H.
Qed.

(** ** Step counts *)

Lemma Ok_inj {A : Type} (a b : A) : Ok a = Ok b -> a = b.
Proof. intros H. inversion H. reflexivity. Qed.

(** C8, as the code has it.  A line has step count 1 when it is created
    (by [generate] for a root, by a tick for a child): [buildLine] grows
    it once.  Each tick that finds it active adds one.  So a line that
    was active at the start of each of [k] consecutive ticks has gained
    [k] steps over them, and a line active at the start of each of the
    [k] ticks since its creation has step count [k + 1]. *)
Theorem steps_after_ticks `{N : JSNum} {T : JSMath N} (canvas : Canvas) (config : Config) :
  (forall st st' r l,
     generate canvas config st = Ok st' ->
     lookup_line (forest st') r = Some l -> Line.steps l = 1%nat)
  /\ (forall st st' r l,
      grow canvas config st = Ok st' ->
      lookup_line (forest st) r = None ->
      lookup_line (forest st') r = Some l -> Line.steps l = 1%nat)
  /\ (forall k st st' r l,
      grows canvas config k st = Ok st' ->
      lookup_line (forest st) r = Some l ->
      (forall i sti li, (i < k)%nat -> grows canvas config i st = Ok sti ->
                        lookup_line (forest sti) r = Some li -> Line.active li = true) ->
      exists l', lookup_line (forest st') r = Some l'
                 /\ Line.steps l' = (Line.steps l + k)%nat).
Proof.
  split; [| split].
  - intros st st' r l Hg Hl. eapply generate_steps; eauto.
  - intros st st' r l Hg Hn Hl. eapply grow_new_lines; eauto.
  - intros k. apply grows_steps.
Qed.

Lemma steps_after_ticks_witness :
  Line.steps demo_root = 1%nat
  /\ exists l', lookup_line (forest demo_tick) (0, 0)%nat = Some l'
                /\ Line.steps l' = (Line.steps demo_root + 1)%nat.
Proof.
  destruct (steps_after_ticks demo_canvas demo_config) as (Hgen & _ & Hk).
  split.
  - apply (Hgen (buildModel 1) demo_start (0, 0)%nat demo_root);
      vm_compute; reflexivity.
  - apply (Hk 1%nat demo_start demo_tick (0, 0)%nat demo_root).
    + vm_compute. reflexivity.
    + vm_compute. reflexivity.
    + intros i sti li Hi Hg Hl. assert (i = 0%nat) by lia. subst i.
      apply Ok_inj in Hg. subst sti.
      assert (E : lookup_line (forest demo_start) (0, 0)%nat = Some demo_root)
        by (vm_compute; reflexivity).
      rewrite E in Hl. apply (inj Some) in Hl. subst li.
      vm_compute. reflexivity.
Defined.

(** C8 as stated fails by one: the root of the demonstration run is
    active when the first tick starts, and after that one tick its step
    count is 2; before any tick it is already 1. *)
Lemma steps_after_ticks_counterexample :
  run demo_canvas demo_config 1 0 = Ok demo_start
  /\ run demo_canvas demo_config 1 1 = Ok demo_tick
  /\ (Line.active <$> lookup_line (forest demo_start) (0, 0)%nat) = Some true
  /\ (Line.steps <$> lookup_line (forest demo_start) (0, 0)%nat) = Some 1%nat
  /\ (Line.steps <$> lookup_line (forest demo_tick) (0, 0)%nat) = Some 2%nat.
Proof.
  split; [vm_compute; reflexivity |].
  split; [vm_compute; reflexivity |].
  split; [vm_compute; reflexivity |].
  split; vm_compute; reflexivity.
Qed.

(** ** Reproducibility *)

Section Reproducible.
Context `{N : JSNum} {T : JSMath N}.
Variable canvas : Canvas.
Variable config : Config.
Variable seed : Z.

Lemma runs_to_functional (k : nat) :
  forall st1 st2,
    runs_to canvas config seed k st1 -> runs_to canvas config seed k st2 -> st1 = st2.
Proof.
  induction k as [| k IH]; intros st1 st2 H1 H2.
  - inversion H1; inversion H2; subst. congruence.
  - inversion H1 as [| k1 a1 b1 Ha1 Hg1]; inversion H2 as [| k2 a2 b2 Ha2 Hg2]; subst.
    rewrite (IH a1 a2 Ha1 Ha2) in Hg1. congruence.
Qed.

Lemma runs_to_seeds (k : nat) (st : State) :
  runs_to canvas config seed k st -> is_Some (seeds st).
Proof.
  intros H. destruct H as [st Hg | k st st' _ Hg].
  - destruct (generate_spec canvas config _ _ Hg) as (ss & Hs & _). rewrite Hs. eauto.
  - eapply grow_seeds, Hg.
Qed.

Lemma runs_to_total (k : nat) :
  0 <= seedCount config < 4294967296 ->
  exists st, runs_to canvas config seed k st.
Proof.
  intros Hc. induction k as [| k [st IH]].
  - destruct (generate_Ok canvas config (buildModel seed) Hc) as [st Hg].
    exists st. constructor. exact Hg.
  - destruct (grow_Ok canvas config st (runs_to_seeds k st IH)) as [st' Hg].
    exists st'. econstructor; eauto.
Qed.

Lemma runs_to_run (k : nat) (st : State) :
  runs_to canvas config seed k st -> run canvas config seed k = Ok st.
Proof.
  unfold run. intros H.
  assert (G : forall k st, runs_to canvas config seed k st ->
              exists st0, generate canvas config (buildModel seed) = Ok st0
                          /\ forall j stj, grows canvas config j st = Ok stj ->
                                           grows canvas config (k + j) st0 = Ok stj).
  { clear. induction 1 as [st Hg | k st st' _ (st0 & Hg0 & IH) Hg].
    - exists st. split; [exact Hg |]. intros j stj Hj. exact Hj.
    - exists st0. split; [exact Hg0 |]. intros j stj Hj.
      replace (S k + j)%nat with (k + S j)%nat by lia. apply IH. simpl. rewrite Hg. exact Hj. }
  destruct (G k st H) as (st0 & Hg0 & Hk). rewrite Hg0.
  specialize (Hk 0%nat st eq_refl). rewrite Nat.add_0_r in Hk. exact Hk.
Qed.
End Reproducible.

(** C1.  For a fixed seed (and the same configuration and canvas), a
    run of [N] ticks exists, and any two runs of [N] ticks end in the
    same state: the same sequence of draws, the same generator state,
    and the same lines with the same origins, tips, angles, generations,
    steps and flags. *)
Theorem run_reproducible `{N : JSNum} {T : JSMath N}
    (canvas : Canvas) (config : Config) (seed : Z) (k : nat) :
  0 <= seedCount config < 4294967296 ->
  exists st,
    runs_to canvas config seed k st
    /\ run canvas config seed k = Ok st
    /\ forall st1 st2,
         runs_to canvas config seed k st1 ->
         runs_to canvas config seed k st2 ->
         draws st1 = draws st2
         /\ rnd_seed st1 = rnd_seed st2
         /\ all_objs (forest st1) = all_objs (forest st2)
         /\ st1 = st2.
Proof.
  intros Hc. destruct (runs_to_total canvas config seed k Hc) as [st Hst].
  exists st. split; [exact Hst |]. split; [apply runs_to_run, Hst |].
  intros st1 st2 H1 H2.
  rewrite (runs_to_functional canvas config seed k st1 st2 H1 H2). auto.
Qed.

Lemma run_reproducible_witness :
  exists st,
    runs_to demo_canvas demo_config 1 1 st
    /\ run demo_canvas demo_config 1 1 = Ok st
    /\ forall st1 st2,
         runs_to demo_canvas demo_config 1 1 st1 ->
         runs_to demo_canvas demo_config 1 1 st2 ->
         draws st1 = draws st2
         /\ rnd_seed st1 = rnd_seed st2
         /\ all_objs (forest st1) = all_objs (forest st2)
         /\ st1 = st2.
Proof.
  apply (run_reproducible demo_canvas demo_config 1 1). simpl. lia.
Defined.

(** ** Draws made by the model *)

Section Draws.
Context `{N : JSNum} {T : JSMath N}.
Variable canvas : Canvas.
Variable config : Config.

Lemma randomFromSeed_seed (a b : num) (seed : Z) :
  (randomFromSeed a b seed).2 = seed + 1831565813.
Proof. reflexivity. Qed.

Lemma rnd_used (a b : num) (st : State) :
  used (rnd a b st).2 = used st + 1
  /\ rnd_seed (rnd a b st).2 = rnd_seed st + 1831565813.
Proof.
  rewrite rnd_eq. unfold used. cbn [snd draws rnd_seed].
  rewrite length_app, randomFromSeed_seed. simpl. split; lia.
Qed.

Lemma store_line_used (r : LineRef) (l : Line.t) (st : State) :
  used (store_line r l st).2 = used st
  /\ rnd_seed (store_line r l st).2 = rnd_seed st.
Proof. split; reflexivity. Qed.

Lemma add_count_used (d : Z) (st : State) :
  used (add_count d st).2 = used st /\ rnd_seed (add_count d st).2 = rnd_seed st.
Proof. split; reflexivity. Qed.

Lemma push_line_used (si : nat) (l : Line.t) (st : State) :
  used (push_line si l st).2 = used st /\ rnd_seed (push_line si l st).2 = rnd_seed st.
Proof. split; reflexivity. Qed.

Lemma Line_grow_used (l : Line.t) (st : State) :
  used (Line_grow config l st).2 = used st + 2
  /\ rnd_seed (Line_grow config l st).2 = rnd_seed st + 2 * 1831565813.
Proof.
  rewrite Line_grow_eq. cbv zeta. cbn [snd]. unfold rnd0.
  destruct (rnd_used (of_Z 1) (of_Z 0) (rnd (of_Z 1) (of_Z 0) st).2) as [U2 R2].
  destruct (rnd_used (of_Z 1) (of_Z 0) st) as [U1 R1].
  rewrite U2, R2, U1, R1. split; lia.
Qed.

Lemma buildLine_used (p0 : Point.t) (a : num) (parent : option Obj) (st : State) :
  used (buildLine config p0 a parent st).2 = used st + 3
  /\ rnd_seed (buildLine config p0 a parent st).2 = rnd_seed st + 3 * 1831565813.
Proof.
  rewrite buildLine_eq.
  match goal with
  | |- context [Line_grow config ?l ?s] => destruct (Line_grow_used l s) as [U R]
  end.
  rewrite U, R. destruct (rnd_used (of_Z 1) (of_Z 0) st) as [U1 R1].
  unfold rnd0. destruct (add_count_used 1 (rnd (of_Z 1) (of_Z 0) st).2) as [U2 R2].
  rewrite U2, R2, U1, R1. split; lia.
Qed.

Lemma grown_state_used (si li : nat) (line : Line.t) (st : State) :
  used (grown_state config si li line st) = used st + 2
  /\ rnd_seed (grown_state config si li line st) = rnd_seed st + 2 * 1831565813.
Proof.
  unfold grown_state.
  match goal with
  | |- context [store_line ?r ?l ?s] => destruct (store_line_used r l s) as [U R]
  end.
  rewrite U, R. apply Line_grow_used.
Qed.

Lemma child_of_used (si li : nat) (line : Line.t) (st : State) :
  used (child_of config si li line st).2 = used st + 6
  /\ rnd_seed (child_of config si li line st).2 = rnd_seed st + 6 * 1831565813.
Proof.
  unfold child_of. cbv zeta.
  match goal with
  | |- context [buildLine config ?p ?a ?par ?s] =>
      destruct (buildLine_used p a par s) as [U R]
  end.
  rewrite U, R. unfold rnd0.
  destruct (rnd_used (of_Z 1) (of_Z 0) (split_state config si li line st)) as [U1 R1].
  rewrite U1, R1. unfold split_state.
  match goal with
  | |- context [store_line ?r ?l ?s] => destruct (store_line_used r l s) as [U2 R2]
  end.
  rewrite U2, R2. destruct (grown_state_used si li line st) as [U3 R3].
  rewrite U3, R3. split; lia.
Qed.

(** [growLine] on a line of the forest: the line is replaced by one of
    four versions of the grown line, at most one child is pushed, and
    two draws are made for the line and four for the child. *)
Lemma growLine_shape (st : State) (si li : nat) (line : Line.t) :
  lookup_line (forest st) (si, li) = Some line ->
  let grown := (Line_grow config line st).1 in
  let st' := (growLine canvas config si li st).2 in
  exists (line' : Line.t) (kids : list Line.t),
    forest st' = append_lines si kids (put_line (si, li) line' (forest st))
    /\ used st' = used st + 2 + 4 * Z.of_nat (length kids)
    /\ rnd_seed st' = rnd_seed st + 1831565813 * (2 + 4 * Z.of_nat (length kids))
    /\ ((kids = [] /\ line' = Line.set_active false grown)
        \/ (kids = [] /\ line' = Line.set_active false (Line_clip grown))
        \/ (kids = [] /\ line' = grown)
        \/ (kids = [(child_of config si li line st).1]
            /\ line' = Line.set_split false grown)).
Proof.
  intros Hl grown st'.
  pose proof (growLine_branches canvas config st si li line Hl) as (HA & HB & HC & HD).
  pose proof (growLine_unfold canvas config si li line st Hl) as E.
  destruct (grown_state_used si li line st) as [U2 R2].
  destruct (child_of_used si li line st) as [U6 R6].
  cbv zeta in HA, HB, HC, HD, E. fold grown st' in HA, HB, HC, HD, E.
  destruct (Line.expired grown) eqn:He.
  { destruct (HA eq_refl) as (F & _).
    assert (Hu : used st' = used (grown_state config si li line st)
                 /\ rnd_seed st' = rnd_seed (grown_state config si li line st))
      by (rewrite E; split; reflexivity).
    destruct Hu as [Hu Hr].
    exists (Line.set_active false grown), []. rewrite append_lines_nil.
    split; [exact F |]. simpl length.
    split; [lia |]. split; [lia |]. left. auto. }
  destruct (checkForCollisions canvas (si, li, grown)
              (forEachLineUntilTrue config (grown_state config si li line st))) eqn:Hc.
  { destruct (HB eq_refl eq_refl) as (F & _).
    assert (Hu : used st' = used (grown_state config si li line st)
                 /\ rnd_seed st' = rnd_seed (grown_state config si li line st))
      by (rewrite E; split; reflexivity).
    destruct Hu as [Hu Hr].
    exists (Line.set_active false (Line_clip grown)), []. rewrite append_lines_nil.
    split; [exact F |]. simpl length.
    split; [lia |]. split; [lia |]. right. left. auto. }
  destruct (Line.split grown) eqn:Hsp.
  - destruct (HC eq_refl eq_refl eq_refl) as (F & _).
    assert (Hu : used st' = used (child_of config si li line st).2
                 /\ rnd_seed st' = rnd_seed (child_of config si li line st).2)
      by (rewrite E; split; reflexivity).
    destruct Hu as [Hu Hr].
    exists (Line.set_split false grown), [(child_of config si li line st).1].
    rewrite <- append_line_lines. split; [exact F |]. simpl length.
    split; [lia |]. split; [lia |]. right. right. right. auto.
  - destruct (HD eq_refl eq_refl eq_refl) as (F & _).
    exists grown, []. rewrite append_lines_nil.
    split; [exact F |]. simpl length. rewrite E.
    split; [lia |]. split; [lia |]. right. right. left. auto.
Qed.
End Draws.

(** ** Sums over the forest *)

Section Sums.
Context `{N : JSNum} {T : JSMath N}.
Variable f : Line.t -> Z.





End Sums.

Section SumsFacts.
Context `{N : JSNum}.




Lemma active_total_sum (ss : list Seed.t) :
  active_total ss = forest_sum (fun l => b2z (Line.active l)) ss.
Proof.
  induction ss as [| s ss IH]; [reflexivity |].
  rewrite active_total_cons, IH. simpl. f_equal.
  induction (Seed.lines s) as [| l ls IHl]; [reflexivity |].
  rewrite active_in_cons, IHl. reflexivity.
Qed.
End SumsFacts.

(** ** Rules for reasoning about a tick *)

Section TickRules.
Context `{N : JSNum} {T : JSMath N}.
Variable canvas : Canvas.
Variable config : Config.

(** What remains to be visited is untouched by a visit. *)
Lemma growLine_other (st : State) (si li : nat) (line : Line.t) (r : LineRef) (l : Line.t) :
  lookup_line (forest st) (si, li) = Some line ->
  r <> (si, li) ->
  lookup_line (forest st) r = Some l ->
  lookup_line (forest (growLine canvas config si li st).2) r = Some l.
Proof.
  intros Hl Hne Hr.
  destruct (stepped_growLine canvas config st si li line Hl) as (_ & _ & E & _).
  destruct (E r l Hr) as (l' & Hl' & _ & B). rewrite Hl'. f_equal. apply B.
  intros Hin. apply list_elem_of_singleton in Hin. contradiction.
Qed.






(** A property of states that every visit of an active line keeps is
    kept by a tick. *)
Lemma grow_keeps (P : State -> Prop) (st st' : State) :
  (forall st si li line,
     lookup_line (forest st) (si, li) = Some line -> Line.active line = true ->
     P st -> P (growLine canvas config si li st).2) ->
  grow canvas config st = Ok st' -> P st -> P st'.
Proof.
  intros Hstep Hg HP.
  assert (Hlines : forall si lis st,
            NoDup lis ->
            (forall li, li ∈ lis ->
               exists line, lookup_line (forest st) (si, li) = Some line
                            /\ Line.active line = true) ->
            P st -> P (for_each (growLine canvas config si) lis st).2).
  { intros si. induction lis as [| li lis IH]; intros s0 Hnd Hex H0; [exact H0 |].
    rewrite for_each_cons. apply NoDup_cons in Hnd as [Hni Hnd].
    destruct (Hex li ltac:(left)) as (line & Hl & Ha).
    apply IH; [exact Hnd | | eapply Hstep; eauto].
    intros li' Hin. destruct (Hex li' ltac:(right; exact Hin)) as (l' & Hl' & Ha').
    exists l'. split; [| exact Ha'].
    apply (growLine_other s0 si li line (si, li') l' Hl); [| exact Hl'].
    intros E. inversion E; subst. contradiction. }
  assert (Hseed : forall si st, P st -> P (Seed_grow canvas config si st).2).
  { intros si s0 H0. unfold Seed_grow. destruct (forest s0 !! si) as [s |] eqn:Es; [| exact H0].
    apply Hlines; [apply active_from_NoDup | | exact H0].
    intros li Hin. apply active_from_elem in Hin as (_ & l & Hl & Ha).
    rewrite Nat.sub_0_r in Hl. exists l. split; [| exact Ha].
    apply lookup_line_Some. eauto. }
  unfold grow in Hg. destruct (seeds st) as [ss |]; [| discriminate].
  inversion Hg; subst st'. clear Hg.
  generalize (seq 0 (length ss)). intros sis. revert st HP.
  induction sis as [| si sis IH]; intros s0 H0; [exact H0 |].
  rewrite for_each_cons. apply IH, Hseed, H0.
Qed.
End TickRules.

(** ** What a tick costs in draws *)

Section TickDraws.
Context `{N : JSNum} {T : JSMath N}.
Variable canvas : Canvas.
Variable config : Config.



End TickDraws.



(** ** The forest that [generate] builds *)

Section GenerateShape.
Context `{N : JSNum} {T : JSMath N}.
Variable canvas : Canvas.
Variable config : Config.

Lemma advanced_p1 (l : Line.t) : Line.p1 (advanced l) = advance (Line.angle l) (Line.p1 l).
Proof. reflexivity. Qed.

Lemma buildLine_tip (p0 : Point.t) (a : num) (parent : option Obj) (st : State) :
  Line.p1 (buildLine config p0 a parent st).1 = advance a p0.
Proof.
  rewrite buildLine_eq.
  match goal with
  | |- context [Line_grow config ?l ?s] =>
      pose proof (Line_grow_fields config l s) as (_ & _ & Hp & _)
  end.
  cbv zeta in Hp. rewrite Hp. reflexivity.
Qed.

Lemma buildSeed_shape (st : State) :
  seed_fresh (buildSeed canvas config st).1
  /\ used (buildSeed canvas config st).2 = used st + 6
  /\ rnd_seed (buildSeed canvas config st).2 = rnd_seed st + 6 * 1831565813.
Proof.
  unfold buildSeed, bind, ret.
  destruct (rnd_used (of_Z 0) (mul Math_PI (of_Z 2)) st) as [U1 R1].
  destruct (rnd (of_Z 0) (mul Math_PI (of_Z 2)) st) as [a st1].
  destruct (rnd_used (of_Z 0) (width canvas) st1) as [U2 R2].
  destruct (rnd (of_Z 0) (width canvas) st1) as [x st2].
  destruct (rnd_used (of_Z 0) (height canvas) st2) as [U3 R3].
  destruct (rnd (of_Z 0) (height canvas) st2) as [y st3].
  destruct (buildLine_used config (Point.mk _ x y) a None st3) as [U4 R4].
  pose proof (buildLine_tip (Point.mk _ x y) a None st3) as Ht.
  pose proof (buildLine_fields config (Point.mk _ x y) a None st3)
    as (F1 & F2 & F3 & F4 & F5 & F6).
  destruct (buildLine config (Point.mk _ x y) a None st3) as [root st4].
  cbn [fst snd] in *. split; [| split; lia].
  exists root. split; [reflexivity |]. split; [repeat split; assumption |].
  split; [exact F4 |]. rewrite Ht, F3, F4. reflexivity.
Qed.

Lemma array_map_buildSeed_shape (arr : list unit) :
  forall st,
    let r := array_map (fun _ => buildSeed canvas config) arr st in
    Forall seed_fresh r.1
    /\ length r.1 = length arr
    /\ used r.2 = used st + 6 * Z.of_nat (length arr)
    /\ rnd_seed r.2 = rnd_seed st + 1831565813 * (6 * Z.of_nat (length arr)).
Proof.
  induction arr as [| u arr IH]; intros st; cbn [array_map].
  - unfold ret. cbn [fst snd length]. split; [constructor | repeat split; lia].
  - unfold bind, ret.
    pose proof (buildSeed_shape st) as (S1 & U1 & R1).
    destruct (buildSeed canvas config st) as [s st1]. cbn [fst snd] in *.
    specialize (IH st1). cbv zeta in IH.
    destruct (array_map (fun _ => buildSeed canvas config) arr st1) as [ss st2].
    cbn [fst snd length] in *. destruct IH as (S2 & L2 & U2 & R2).
    split; [constructor; assumption |]. repeat split; lia.
Qed.

Lemma generate_fresh (st st' : State) :
  generate canvas config st = Ok st' ->
  exists ss,
    seeds st' = Some ss
    /\ Z.of_nat (length ss) = seedCount config
    /\ Forall seed_fresh ss
    /\ used st' = used st + 6 * seedCount config
    /\ rnd_seed st' = rnd_seed st + 1831565813 * (6 * seedCount config)
    /\ activeLineCount st' = activeLineCount st + seedCount config.
Proof.
  intros Hg.
  destruct (generate_spec canvas config st st' Hg) as (ss0 & Hs0 & Hr0 & Hc0 & Hn0).
  rewrite (active_total_roots ss0 Hr0), Hn0 in Hc0.
  unfold generate, js_Array in Hg.
  destruct ((0 <=? seedCount config) && (seedCount config <? 4294967296)) eqn:Hr;
    [| discriminate].
  apply andb_true_iff in Hr as [Hr _]. apply Z.leb_le in Hr.
  pose proof (array_map_buildSeed_shape (replicate (Z.to_nat (seedCount config)) tt) st) as H.
  cbv zeta in H.
  destruct (array_map (fun _ => buildSeed canvas config)
              (replicate (Z.to_nat (seedCount config)) tt) st) as [ss st1].
  cbn [fst snd] in H. destruct H as (F & L & U & R).
  rewrite length_replicate in L, U, R.
  inversion Hg; subst st'. exists ss.
  split; [reflexivity |]. split; [lia |]. split; [exact F |].
  split; [| split; [| exact Hc0]].
  - change (used (set_forest ss st1)) with (used st1). lia.
  - change (rnd_seed (set_forest ss st1)) with (rnd_seed st1). lia.
Qed.
End GenerateShape.



(** ** What a visit does to a line *)

Section Visit.
Context `{N : JSNum} {T : JSMath N}.
Variable canvas : Canvas.
Variable config : Config.

Lemma growLine_visit (st : State) (si li : nat) (line : Line.t) :
  lookup_line (forest st) (si, li) = Some line ->
  exists (line' : Line.t) (kids : list Line.t),
    forest (growLine canvas config si li st).2 =
      append_lines si kids (put_line (si, li) line' (forest st))
    /\ same_core line line'
    /\ Line.steps line' = S (Line.steps line)
    /\ (Line.active line' = true ->
        Line.active line = true
        /\ Line.p1 line' = advance (Line.angle line) (Line.p1 line))
    /\ (Line.active line' = false ->
        Line.p1 line' = advance (Line.angle line) (Line.p1 line)
        \/ Line.p1 line' =
           retreat (Line.angle line) (advance (Line.angle line) (Line.p1 line)))
    /\ (Line.expired line = true -> Line.expired line' = true)
    /\ Forall (fun k =>
                 Line.steps k = 1%nat /\ Line.active k = true
                 /\ Line.parent k = Some (si, li)
                 /\ Line.generation k = S (Line.generation line')
                 /\ Line.p0 k = Line.p1 line'
                 /\ Line.p1 k = advance (Line.angle k) (Line.p0 k)
                 /\ Line.active line' = Line.active line
                 /\ quarter_turn (Line.angle line) (Line.angle k)) kids.
Proof.
  intros Hl.
  destruct (growLine_shape canvas config st si li line Hl) as (line' & kids & F & _ & _ & Hc).
  pose proof (Line_grow_fields config line st)
    as (Hs & Hp0 & Hp1 & Han & Hge & Hpa & Hac & Hrn & Hex).
  pose proof (child_of_fields config si li line st) as (K1 & K2 & K3 & K4 & K5 & K6).
  cbv zeta in *.
  set (grown := (Line_grow config line st).1) in *.
  rewrite advanced_p1 in Hp1.
  exists line', kids. split; [exact F |].
  assert (Hcore : same_core line grown) by (repeat split; assumption).
  destruct Hc as [[-> ->] | [[-> ->] | [[-> ->] | [-> ->]]]].
  - split; [exact Hcore |]. split; [exact Hs |].
    split; [intros H; discriminate H |]. split; [intros _; left; exact Hp1 |].
    split; [exact Hex | constructor].
  - split; [exact Hcore |]. split; [exact Hs |].
    split; [intros H; discriminate H |].
    split; [| split; [exact Hex | constructor]].
    intros _. right. unfold Line_clip, Line.set_active, Line.set_p1. cbn [Line.p1].
    rewrite Hp1. unfold retreat. rewrite Han. reflexivity.
  - split; [exact Hcore |]. split; [exact Hs |].
    split; [intros H; split; [rewrite <- Hac; exact H | exact Hp1] |].
    split; [intros _; left; exact Hp1 |]. split; [exact Hex | constructor].
  - split; [exact Hcore |]. split; [exact Hs |].
    split; [intros H; split; [rewrite <- Hac; exact H | exact Hp1] |].
    split; [intros _; left; exact Hp1 |]. split; [exact Hex |].
    constructor; [| constructor].
    split; [exact K1 |]. split; [exact K2 |]. split; [exact K5 |].
    split; [exact K6 |]. split; [exact K3 |].
    split; [| split; [exact Hac |]].
    + unfold child_of. cbv zeta. rewrite buildLine_tip.
      match goal with
      | |- context [buildLine config ?p ?a ?par ?s] =>
          pose proof (buildLine_fields config p a par s) as (_ & _ & B3 & B4 & _)
      end.
      cbv zeta in B3, B4. rewrite B3, B4. reflexivity.
    + rewrite K4. unfold child_angle, quarter_turn. rewrite Han.
      destruct (ltb _ _); [left | right]; reflexivity.
Qed.

(** Where a line of the forest after a visit comes from. *)
Lemma visited_lookup (ss : list Seed.t) (si li : nat) (line line' : Line.t)
    (kids : list Line.t) (r : LineRef) (l : Line.t) :
  lookup_line ss (si, li) = Some line ->
  lookup_line (append_lines si kids (put_line (si, li) line' ss)) r = Some l ->
  (r = (si, li) /\ l = line')
  \/ (r <> (si, li) /\ lookup_line ss r = Some l)
  \/ (lookup_line ss r = None /\ r.1 = si /\ l ∈ kids /\ (li < r.2)%nat).
Proof.
  intros Hl Hr. destruct (lookup_line ss r) as [l0 |] eqn:E0.
  - destruct (decide (r = (si, li))) as [-> | Hne].
    + left. split; [reflexivity |].
      rewrite (lookup_append_lines_Some si kids _ (si, li) line'
                 (lookup_put_line_eq (si, li) line line' ss Hl)) in Hr. congruence.
    + right. left. split; [exact Hne |].
      rewrite (lookup_append_lines_Some si kids _ r l0) in Hr; [congruence |].
      rewrite lookup_put_line_ne by exact Hne. exact E0.
  - right. right. split; [reflexivity |].
    pose proof (lookup_put_line_None (si, li) r line' ss E0) as E1.
    destruct (lookup_append_lines_new _ _ _ _ _ E1 Hr) as [Hs Hin].
    split; [exact Hs |]. split; [exact Hin |].
    apply lookup_line_Some in Hl as (s & Hsi & Hli). cbn [fst snd] in Hsi, Hli.
    unfold lookup_line in E0. rewrite Hs, Hsi in E0. simpl in E0.
    apply lookup_ge_None in E0. apply lookup_lt_Some in Hli. lia.
Qed.

Lemma visited_lookup_old (ss : list Seed.t) (si li : nat) (line line' : Line.t)
    (kids : list Line.t) (r : LineRef) (l : Line.t) :
  lookup_line ss (si, li) = Some line ->
  lookup_line ss r = Some l ->
  lookup_line (append_lines si kids (put_line (si, li) line' ss)) r =
  Some (if decide (r = (si, li)) then line' else l).
Proof.
  intros Hl Hr. apply lookup_append_lines_Some.
  destruct (decide (r = (si, li))) as [-> | Hne].
  - eapply lookup_put_line_eq, Hl.
  - rewrite lookup_put_line_ne by exact Hne. exact Hr.
Qed.
End Visit.

(** ** Lines over time *)

Section Later.
Context `{N : JSNum} {T : JSMath N}.
Variable canvas : Canvas.
Variable config : Config.

Lemma line_later_refl (l : Line.t) : line_later l l.
Proof. unfold line_later, same_core. repeat split; auto. Qed.

Lemma line_later_trans (l1 l2 l3 : Line.t) :
  line_later l1 l2 -> line_later l2 l3 -> line_later l1 l3.
Proof.
  intros ((A1 & A2 & A3 & A4 & A5) & S1 & C1 & E1 & I1)
         ((B1 & B2 & B3 & B4 & B5) & S2 & C2 & E2 & I2).
  split; [repeat split; congruence |].
  split; [lia |]. split; [auto |]. split; [auto |].
  intros Hi. rewrite <- (I1 Hi). apply I2. rewrite (I1 Hi). exact Hi.
Qed.

Lemma forest_later_refl (ss : list Seed.t) : forest_later ss ss.
Proof.
  split; [reflexivity |]. intros r l H. exists l. split; [exact H | apply line_later_refl].
Qed.

Lemma forest_later_trans (s1 s2 s3 : list Seed.t) :
  forest_later s1 s2 -> forest_later s2 s3 -> forest_later s1 s3.
Proof.
  intros [L1 H1] [L2 H2]. split; [congruence |].
  intros r l Hl. destruct (H1 r l Hl) as (l2 & Hl2 & A).
  destruct (H2 r l2 Hl2) as (l3 & Hl3 & B).
  exists l3. split; [exact Hl3 |]. eapply line_later_trans; eauto.
Qed.

Lemma growLine_later (st : State) (si li : nat) (line : Line.t) :
  lookup_line (forest st) (si, li) = Some line ->
  Line.active line = true ->
  forest_later (forest st) (forest (growLine canvas config si li st).2).
Proof.
  intros Hl Ha.
  destruct (growLine_visit canvas config st si li line Hl)
    as (line' & kids & F & Hcore & Hs & Hon & _ & Hex & _).
  rewrite F. split; [rewrite length_append_lines, length_put_line; reflexivity |].
  intros r l Hr. rewrite (visited_lookup_old _ si li line line' kids r l Hl Hr).
  eexists. split; [reflexivity |].
  destruct (decide (r = (si, li))) as [-> | Hne]; [| apply line_later_refl].
  assert (l = line) by congruence. subst l.
  split; [exact Hcore |]. split; [lia |]. split; [intros H; apply Hon, H |].
  split; [exact Hex |]. intros Hi. congruence.
Qed.

Lemma grow_later (st st' : State) :
  grow canvas config st = Ok st' -> forest_later (forest st) (forest st').
Proof.
  intros Hg.
  apply (grow_keeps canvas config (fun s => forest_later (forest st) (forest s)) st st');
    [| exact Hg | apply forest_later_refl].
  intros s si li line Hl Ha H. eapply forest_later_trans; [exact H |].
  eapply growLine_later; eauto.
Qed.

Lemma grows_later (k : nat) :
  forall st st', grows canvas config k st = Ok st' -> forest_later (forest st) (forest st').
Proof.
  induction k as [| k IH]; intros st st' Hg.
  - simpl in Hg. inversion Hg. apply forest_later_refl.
  - apply grows_S in Hg as (st1 & Hg1 & Hg).
    eapply forest_later_trans; [eapply grow_later, Hg1 | eapply IH, Hg].
Qed.

(** *** The shape of the forest *)

Lemma tip_after_core (l l' : Line.t) (n : nat) :
  same_core l l' -> tip_after l' n = tip_after l n.
Proof. intros (H1 & H2 & _). unfold tip_after. rewrite H1, H2. reflexivity. Qed.

Lemma tip_after_S (l : Line.t) (n : nat) :
  tip_after l (S n) = advance (Line.angle l) (tip_after l n).
Proof. reflexivity. Qed.

Lemma fresh_forest_ok (ss : list Seed.t) : Forall seed_fresh ss -> forest_ok ss.
Proof.
  intros HF. rewrite Forall_forall in HF. split.
  - intros si s Hs.
    destruct (HF s) as (root & E & (_ & _ & Hp & _) & Ha & _);
      [eapply list_elem_of_lookup_2, Hs |].
    exists root. rewrite E. auto.
  - intros r l Hl. apply lookup_line_Some in Hl as (s & Hs & Hli).
    destruct (HF s) as (root & E & (F1 & F2 & F3 & F4) & Ha & Hp);
      [eapply list_elem_of_lookup_2, Hs |].
    rewrite E in Hli. destruct r as [a [| b]]; simpl in Hli; [| discriminate].
    inversion Hli; subst l. split.
    + split; [lia |]. rewrite F1. split; [intros _; exact Hp | congruence].
    + unfold parent_ok. rewrite F3. auto.
Qed.

Lemma growLine_forest_ok (st : State) (si li : nat) (line : Line.t) :
  lookup_line (forest st) (si, li) = Some line ->
  Line.active line = true ->
  forest_ok (forest st) -> forest_ok (forest (growLine canvas config si li st).2).
Proof.
  intros Hl Ha [Hroots Hlines].
  destruct (growLine_visit canvas config st si li line Hl)
    as (line' & kids & F & Hcore & Hs & Hon & Hoff & _ & Hkids).
  rewrite F. set (ss := forest st) in *.
  destruct (Hlines (si, li) line Hl) as [(T1 & T2 & _) Pline].
  assert (Htip' : tip_ok line').
  { split; [lia |]. rewrite Hs, tip_after_S, (tip_after_core line line' _ Hcore).
    destruct Hcore as (_ & Hang & _). rewrite Hang, <- (T2 Ha).
    split; [intros H; apply Hon, H | exact Hoff]. }
  pose proof (lookup_line_Some ss (si, li) line) as [Hsome _].
  destruct (Hsome Hl) as (s & Hsi & Hli). cbn [fst snd] in Hsi, Hli.
  split.
  - intros sj s' Hs'. destruct (decide (sj = si)) as [-> | Hne].
    + unfold append_lines, put_line in Hs'. cbn [fst snd] in Hs'.
      rewrite !list_lookup_alter_eq, Hsi in Hs'. simpl in Hs'. inversion Hs'; subst s'.
      destruct (Hroots si s Hsi) as (root & Hr0 & Hrp & Hra).
      simpl. destruct (decide (li = 0%nat)) as [-> | Hl0].
      * exists line'. split.
        -- apply lookup_app_l_Some, list_lookup_insert_eq. eapply lookup_lt_Some, Hr0.
        -- assert (root = line) by congruence. subst root.
           destruct Hcore as (_ & Hang & _ & Hpar & _). split; congruence.
      * exists root. split; [| auto].
        apply lookup_app_l_Some. rewrite list_lookup_insert_ne by exact Hl0. exact Hr0.
    + rewrite append_lines_seed_ne, put_line_seed_ne in Hs' by (cbn; congruence).
      apply (Hroots sj s' Hs').
  - intros r l Hr.
    assert (Hpar : forall p lp,
              lookup_line ss p = Some lp ->
              exists lp', lookup_line (append_lines si kids (put_line (si, li) line' ss)) p
                          = Some lp'
                          /\ Line.generation lp' = Line.generation lp
                          /\ Line.angle lp' = Line.angle lp
                          /\ (Line.steps lp <= Line.steps lp')%nat
                          /\ forall j, tip_after lp' j = tip_after lp j).
    { intros p lp Hp. rewrite (visited_lookup_old ss si li line line' kids p lp Hl Hp).
      eexists. split; [reflexivity |].
      destruct (decide (p = (si, li))) as [-> | Hne]; [| auto].
      assert (lp = line) by congruence. subst lp.
      split; [apply Hcore |]. split; [apply Hcore |]. split; [lia |].
      intros j. apply tip_after_core, Hcore. }
    assert (Hold : forall l0, lookup_line ss r = Some l0 -> same_core l0 l ->
              parent_ok ss r l0 ->
              parent_ok (append_lines si kids (put_line (si, li) line' ss)) r l).
    { intros l0 H0 (C1 & C2 & C3 & C4 & _) P0. unfold parent_ok in *.
      rewrite C4, C3, C2. destruct (Line.parent l0) as [p |]; [| exact P0].
      destruct P0 as (P1 & P2 & lp & Hlp & Hg & Hq & j & Hj & Ho).
      destruct (Hpar p lp Hlp) as (lp' & Hlp' & G & An & St & Tp).
      split; [exact P1 |]. split; [exact P2 |]. exists lp'.
      split; [exact Hlp' |]. split; [congruence |].
      split; [rewrite An; exact Hq |]. exists j.
      split; [lia |]. rewrite C1, Tp. exact Ho. }
    destruct (visited_lookup ss si li line line' kids r l Hl Hr)
      as [[-> ->] | [[Hne Hr0] | (Hn & Hr1 & Hin & Hlt)]].
    + split; [exact Htip' |]. apply (Hold line Hl Hcore Pline).
    + destruct (Hlines r l Hr0) as [Tl Pl].
      split; [exact Tl |]. apply (Hold l Hr0); [| exact Pl].
      unfold same_core. auto.
    + rewrite Forall_forall in Hkids.
      destruct (Hkids l Hin) as (K1 & K2 & K3 & K4 & K5 & K6 & K7 & K8).
      split.
      * split; [lia |]. rewrite K1. split; [intros _; exact K6 | congruence].
      * unfold parent_ok. rewrite K3. cbn [fst snd].
        split; [auto |]. split; [exact Hlt |]. exists line'.
        split; [apply lookup_append_lines_Some; eapply lookup_put_line_eq, Hl |].
        split; [exact K4 |].
        split; [destruct Hcore as (_ & Hang & _); rewrite Hang; exact K8 |].
        exists (Line.steps line').
        split; [lia |]. rewrite K5.
        destruct Htip' as (_ & Hact & _). apply Hact. congruence.
Qed.

Lemma grow_forest_ok (st st' : State) :
  grow canvas config st = Ok st' -> forest_ok (forest st) -> forest_ok (forest st').
Proof.
  intros Hg H0.
  apply (grow_keeps canvas config (fun s => forest_ok (forest s)) st st');
    [| exact Hg | exact H0].
  intros s si li line Hl Ha H. eapply growLine_forest_ok; eauto.
Qed.

Lemma calls_forest_ok (cs : list call) :
  forall st, forest_ok (forest st) -> forest_ok (forest (foldl (do_call canvas config) st cs)).
Proof.
  induction cs as [| c cs IH]; intros st H; [exact H |].
  simpl. apply IH. destruct c; simpl.
  - destruct (generate canvas config st) as [st' |] eqn:Eg; [| exact H].
    destruct (generate_fresh canvas config st st' Eg) as (ss & Hs & _ & HF & _).
    unfold forest. rewrite Hs. apply fresh_forest_ok, HF.
  - destruct (grow canvas config st) as [st' |] eqn:Eg; [| exact H].
    eapply grow_forest_ok; eauto.
Qed.

Lemma reachable_forest_ok (seed : Z) (cs : list call) :
  forest_ok (forest (after_calls canvas config seed cs)).
Proof.
  apply calls_forest_ok. split.
  - intros si s H. discriminate H.
  - intros r l H. unfold lookup_line in H. simpl in H. discriminate H.
Qed.
End Later.

(** X3.  Over any number of ticks the forest only moves on: the number
    of seeds is fixed, every line stays in its slot with the origin,
    angle, generation, parent and tag it was created with, its step
    count never goes down, a cleared active flag is never set again, a
    set expired flag is never cleared, and a line that is inactive is
    never written again. *)
Theorem forest_only_moves_on `{N : JSNum} {T : JSMath N}
    (canvas : Canvas) (config : Config) (k : nat) (st st' : State) :
  grows canvas config k st = Ok st' ->
  length (forest st') = length (forest st)
  /\ forall r l,
       lookup_line (forest st) r = Some l ->
       exists l',
         lookup_line (forest st') r = Some l'
         /\ Line.p0 l' = Line.p0 l /\ Line.angle l' = Line.angle l
         /\ Line.generation l' = Line.generation l /\ Line.parent l' = Line.parent l
         /\ Line.rnd l' = Line.rnd l
         /\ (Line.steps l <= Line.steps l')%nat
         /\ (Line.active l' = true -> Line.active l = true)
         /\ (Line.expired l = true -> Line.expired l' = true)
         /\ (Line.active l = false -> l' = l).
Proof.
  intros Hg. destruct (grows_later canvas config k st st' Hg) as [L H].
  split; [exact L |]. intros r l Hl.
  destruct (H r l Hl) as (l' & Hl' & (C1 & C2 & C3 & C4 & C5) & S1 & A1 & E1 & I1).
  exists l'. repeat split; assumption.
Qed.

Lemma forest_only_moves_on_witness :
  length (forest demo_tick) = length (forest demo_start)
  /\ forall r l,
       lookup_line (forest demo_start) r = Some l ->
       exists l',
         lookup_line (forest demo_tick) r = Some l'
         /\ Line.p0 l' = Line.p0 l /\ Line.angle l' = Line.angle l
         /\ Line.generation l' = Line.generation l /\ Line.parent l' = Line.parent l
         /\ Line.rnd l' = Line.rnd l
         /\ (Line.steps l <= Line.steps l')%nat
         /\ (Line.active l' = true -> Line.active l = true)
         /\ (Line.expired l = true -> Line.expired l' = true)
         /\ (Line.active l = false -> l' = l).
Proof.
  apply (forest_only_moves_on demo_canvas demo_config 1 demo_start demo_tick).
  vm_compute. reflexivity.
Defined.

(** X4.  In every state reached by calls of [generate()] and [grow()],
    each seed has its root in slot 0, with the angle of the seed, and
    every line is either such a root (no parent, generation 0, slot 0)
    or the child of an earlier line of the same seed: one generation
    deeper than its parent, at the angle of its parent plus or minus
    [Math.PI/2], and starting at a point the tip of its parent has been
    at (two or more steps from the parent's origin). *)
Theorem parents_well_formed `{N : JSNum} {T : JSMath N}
    (canvas : Canvas) (config : Config) (seed : Z) (cs : list call) :
  let ss := forest (after_calls canvas config seed cs) in
  (forall si s, ss !! si = Some s ->
     exists root, Seed.lines s !! 0%nat = Some root
                  /\ Line.parent root = None /\ Line.angle root = Seed.angle s)
  /\ forall r l,
       lookup_line ss r = Some l ->
       match Line.parent l with
       | None => r.2 = 0%nat /\ Line.generation l = 0%nat
       | Some p =>
           p.1 = r.1 /\ (p.2 < r.2)%nat
           /\ exists lp, lookup_line ss p = Some lp
                         /\ Line.generation l = S (Line.generation lp)
                         /\ quarter_turn (Line.angle lp) (Line.angle l)
                         /\ exists j, (2 <= j <= Line.steps lp)%nat
                                      /\ Line.p0 l = tip_after lp j
       end.
Proof.
  intros ss. destruct (reachable_forest_ok canvas config seed cs) as [Hr Hl].
  split; [exact Hr |]. intros r l H. apply (Hl r l H).
Qed.

Lemma parents_well_formed_witness :
  exists l lp,
    lookup_line (forest demo_tick) (0, 1)%nat = Some l
    /\ lookup_line (forest demo_tick) (0, 0)%nat = Some lp
    /\ Line.parent l = Some (0, 0)%nat
    /\ Line.generation l = S (Line.generation lp)
    /\ quarter_turn (Line.angle lp) (Line.angle l)
    /\ Line.p0 l = tip_after lp 2.
Proof.
  destruct (parents_well_formed demo_canvas demo_config 1 [call_generate; call_grow])
    as [_ H].
  assert (E : forest (after_calls demo_canvas demo_config 1 [call_generate; call_grow])
              = forest demo_tick) by (vm_compute; reflexivity).
  rewrite E in H.
  destruct (lookup_line (forest demo_tick) (0, 1)%nat) as [l |] eqn:El;
    [| vm_compute in El; discriminate El].
  specialize (H (0, 1)%nat l El).
  assert (Ep : Line.parent l = Some (0, 0)%nat).
  { assert (E1 : Line.parent <$> lookup_line (forest demo_tick) (0, 1)%nat
                 = Some (Some (0, 0)%nat)) by (vm_compute; reflexivity).
    rewrite El in E1. apply (inj Some) in E1. exact E1. }
  rewrite Ep in H. destruct H as (_ & _ & lp & Hlp & Hg & Hq & j & Hj & Ho).
  exists l, lp. split; [reflexivity |]. split; [exact Hlp |]. split; [exact Ep |].
  split; [exact Hg |]. split; [exact Hq |].
  assert (Es : Line.steps lp = 2%nat).
  { assert (E1 : Line.steps <$> lookup_line (forest demo_tick) (0, 0)%nat = Some 2%nat)
      by (vm_compute; reflexivity).
    rewrite Hlp in E1. apply (inj Some) in E1. exact E1. }
  assert (j = 2%nat) by lia. subst j. exact Ho.
Defined.

(** X5.  In every state reached by calls of [generate()] and [grow()],
    the tip of an active line is exactly [steps] steps of [grow] away
    from its origin along its angle, with [steps] at least 1; the tip of
    a stopped line is there too, or one [clip] back from there. *)
Theorem tips_follow_steps `{N : JSNum} {T : JSMath N}
    (canvas : Canvas) (config : Config) (seed : Z) (cs : list call)
    (r : LineRef) (l : Line.t) :
  lookup_line (forest (after_calls canvas config seed cs)) r = Some l ->
  (1 <= Line.steps l)%nat
  /\ (Line.active l = true -> Line.p1 l = tip_after l (Line.steps l))
  /\ (Line.active l = false ->
      Line.p1 l = tip_after l (Line.steps l)
      \/ Line.p1 l = retreat (Line.angle l) (tip_after l (Line.steps l))).
Proof.
  intros H. destruct (reachable_forest_ok canvas config seed cs) as [_ Hl].
  apply (Hl r l H).
Qed.

Lemma tips_follow_steps_witness :
  (1 <= Line.steps demo_root)%nat
  /\ (Line.active demo_root = true ->
      Line.p1 demo_root = tip_after demo_root (Line.steps demo_root))
  /\ (Line.active demo_root = false ->
      Line.p1 demo_root = tip_after demo_root (Line.steps demo_root)
      \/ Line.p1 demo_root =
         retreat (Line.angle demo_root) (tip_after demo_root (Line.steps demo_root))).
Proof.
  apply (tips_follow_steps demo_canvas demo_config 1 [call_generate] (0, 0)%nat demo_root).
  vm_compute. reflexivity.
Defined.

(** ** A finished model *)

Section Finished.
Context `{N : JSNum} {T : JSMath N}.
Variable canvas : Canvas.
Variable config : Config.

Lemma active_from_none (ls : list Line.t) :
  active_in ls = 0 -> forall i, active_from i ls = [].
Proof.
  induction ls as [| l ls IH]; intros H i; [reflexivity |].
  rewrite active_in_cons in H. simpl.
  assert (0 <= active_in ls) by (unfold active_in; lia).
  destruct (Line.active l); unfold b2z in H; [lia |]. apply IH. lia.
Qed.

Lemma active_total_none (ss : list Seed.t) (si : nat) (s : Seed.t) :
  active_total ss = 0 -> ss !! si = Some s -> active_in (Seed.lines s) = 0.
Proof.
  revert si. induction ss as [| x ss IH]; intros si H Hs; [discriminate |].
  rewrite active_total_cons in H.
  assert (0 <= active_in (Seed.lines x)) by (unfold active_in; lia).
  assert (0 <= active_total ss) by (unfold active_total; lia).
  destruct si as [| si]; simpl in Hs.
  - inversion Hs; subst. lia.
  - apply (IH si); [lia | exact Hs].
Qed.

Lemma Seed_grow_idle (st : State) (si : nat) :
  active_total (forest st) = 0 -> Seed_grow canvas config si st = (tt, st).
Proof.
  intros H. unfold Seed_grow. destruct (forest st !! si) as [s |] eqn:Es; [| reflexivity].
  rewrite (active_from_none _ (active_total_none _ si s H Es)). reflexivity.
Qed.

Lemma grow_idle (st : State) :
  is_Some (seeds st) -> active_total (forest st) = 0 -> grow canvas config st = Ok st.
Proof.
  intros [ss Es] H. unfold grow. rewrite Es. f_equal.
  generalize (seq 0 (length ss)). intros sis.
  induction sis as [| si sis IH]; [reflexivity |].
  rewrite for_each_cons, Seed_grow_idle by exact H. exact IH.
Qed.
End Finished.

(** X6.  A finished model stays as it is: when no line of the forest is
    active, [grow()] returns without changing anything, forest, counter
    and generator included.  In a state reached with at most one
    [generate()], this is the case as soon as [isActive()] is false. *)
Theorem finished_model_is_fixed `{N : JSNum} {T : JSMath N}
    (canvas : Canvas) (config : Config) :
  (forall st, is_Some (seeds st) -> count_active (forest st) = 0%nat ->
              grow canvas config st = Ok st)
  /\ forall seed cs,
       (generate_calls cs <= 1)%nat ->
       let st := after_calls canvas config seed cs in
       is_Some (seeds st) -> isActive st = false ->
       forall k, grows canvas config k st = Ok st.
Proof.
  split.
  - intros st Hs H0. apply grow_idle; [exact Hs |]. unfold active_total. lia.
  - intros seed cs Hg st Hs Hi k.
    assert (Hc : counter_ok st) by (apply calls_counter_ok; left; auto).
    assert (H0 : active_total (forest st) = 0).
    { unfold isActive in Hi. apply Z.ltb_ge in Hi. unfold counter_ok in Hc.
      unfold active_total in *. lia. }
    induction k as [| k IH]; [reflexivity |].
    simpl. rewrite (grow_idle canvas config st Hs H0). exact IH.
Qed.

Lemma finished_model_is_fixed_witness :
  let st := after_calls tiny_canvas plain_config 1
              [call_generate; call_grow; call_grow; call_grow; call_grow] in
  grows tiny_canvas plain_config 3 st = Ok st.
Proof.
  intros st.
  destruct (finished_model_is_fixed tiny_canvas plain_config) as [_ H].
  apply (H 1 [call_generate; call_grow; call_grow; call_grow; call_grow]).
  - vm_compute. lia.
  - vm_compute. eauto.
  - vm_compute. reflexivity.
Defined.

(** ** More on the detector *)

Section DetectorSymmetry.
Context `{N : JSNum}.

Lemma LineRef_eqb_sym (a b : LineRef) : LineRef_eqb a b = LineRef_eqb b a.
Proof. unfold LineRef_eqb. rewrite (Nat.eqb_sym a.1), (Nat.eqb_sym a.2). reflexivity. Qed.

Lemma adjacent_sym (line1 line2 : Obj) : adjacent line1 line2 = adjacent line2 line1.
Proof.
  unfold adjacent. rewrite (LineRef_eqb_sym line1.1).
  destruct (LineRef_eqb line2.1 line1.1), (is_ref (Line.parent line1.2) line2.1),
    (is_ref (Line.parent line2.2) line1.1); reflexivity.
Qed.

Lemma Orientation_eqb_sym (a b : Orientation) : Orientation_eqb a b = Orientation_eqb b a.
Proof. destruct a, b; reflexivity. Qed.

Lemma linesIntersect_sym (l1 l2 : Line.t) : linesIntersect l1 l2 = linesIntersect l2 l1.
Proof.
  rewrite (linesIntersect_cases l1 l2), (linesIntersect_cases l2 l1). cbv zeta.
  repeat match goal with
         | |- context [Orientation_eqb ?a ?b] =>
             let x := fresh "e" in set (x := Orientation_eqb a b) in *
         | |- context [onSegment ?a ?b ?c] =>
             let x := fresh "s" in set (x := onSegment a b c) in *
         end.
  repeat match goal with x := _ : bool |- _ => destruct x end; reflexivity.
Qed.
End DetectorSymmetry.

(** X7.  Collision is symmetric, in every arithmetic: two segments
    intersect whichever is given first, adjacency (self, parent, child)
    does not depend on the order, and so the visitor's verdict on a pair
    of lines is the same from either side. *)
Theorem collision_symmetric `{N : JSNum} (line1 line2 : Obj) (c : Config) (f1 : bool) :
  linesIntersect line1.2 line2.2 = linesIntersect line2.2 line1.2
  /\ adjacent line1 line2 = adjacent line2 line1
  /\ ToBoolean (collisionVisitor line1 line2 c f1).1 = collides line1 line2
  /\ collides line1 line2 = collides line2 line1.
Proof.
  split; [apply linesIntersect_sym |]. split; [apply adjacent_sym |]. split.
  - unfold collisionVisitor, collides. destruct (adjacent line1 line2); reflexivity.
  - unfold collides. rewrite adjacent_sym, linesIntersect_sym. reflexivity.
Qed.

(** ** The detector in exact arithmetic *)







(** ** More on the generator *)







(** ** The random configuration *)

Section RandomConfigFacts.
Context `{N : JSNum}.




End RandomConfigFacts.








(** ** What the intersection test decides *)

Section RationalFacts.
Local Open Scope Q_scope.










End RationalFacts.

Section SegmentFacts.
Local Open Scope Q_scope.
Implicit Types p q r a b c d : Point.t (N := Exact).






Lemma segments_meet_sym (l1 l2 : Line.t (N := Exact)) :
  segments_meet l1 l2 -> segments_meet l2 l1.
Proof. intros (q & H1 & H2). exists q. auto. Qed.



End SegmentFacts.

Section Meeting.
Local Open Scope Q_scope.
Implicit Types p q r a b c d : Point.t (N := Exact).


End Meeting.


(** ** Properties of single lines that every call keeps *)

Section LineInvariant.
Context `{N : JSNum} {T : JSMath N}.
Variable canvas : Canvas.
Variable config : Config.
Variable P : Line.t -> Prop.
Hypothesis P_build : forall p a parent st, P (buildLine config p a parent st).1.
Hypothesis P_grow : forall l st, P l -> P (Line_grow config l st).1.
Hypothesis P_stop : forall l, P l -> P (Line.set_active false l).
Hypothesis P_clip : forall l, P l -> P (Line_clip l).
Hypothesis P_split : forall l, P l -> P (Line.set_split false l).




End LineInvariant.

(** ** Lines that cannot expire *)

Section Expiry.
Variable T : JSMath Exact.
Variable canvas : Canvas (N := Exact).
Variable config : Config (N := Exact).



End Expiry.



(** ** Properties of the roots that every call keeps *)

Section RootInvariant.
Context `{N : JSNum} {T : JSMath N}.
Variable canvas : Canvas.
Variable config : Config.
Variable R : Point.t -> num -> Prop.
Hypothesis R_seed :
  forall st, exists root,
    Seed.lines (buildSeed canvas config st).1 = [root]
    /\ R (Line.p0 root) (Line.angle root).




End RootInvariant.

(** ** Where the seeds are *)

Section SeedPlacement.
Variable T : JSMath Exact.
Variable canvas : Canvas (N := Exact).
Variable config : Config (N := Exact).
Hypothesis width_pos : (0 < width canvas)%Q.
Hypothesis height_pos : (0 < height canvas)%Q.
Hypothesis PI_pos : (0 < Math_PI (JSMath := T))%Q.


End SeedPlacement.



(** ** A model that was never started *)

Section Unstarted.
Context `{N : JSNum} {T : JSMath N}.
Variable canvas : Canvas.
Variable config : Config.

Lemma generate_throws (st : State) :
  seedCount config < 0 \/ 4294967296 <= seedCount config ->
  generate canvas config st = Throw RangeError.
Proof.
  intros H. unfold generate, js_Array.
  destruct ((0 <=? seedCount config) && (seedCount config <? 4294967296)) eqn:E;
    [| reflexivity].
  apply andb_true_iff in E as [E1 E2]. apply Z.leb_le in E1. apply Z.ltb_lt in E2. lia.
Qed.

Lemma calls_unstarted (cs : list call) (st : State) :
  seeds st = None ->
  seedCount config < 0 \/ 4294967296 <= seedCount config \/ generate_calls cs = 0%nat ->
  foldl (do_call canvas config) st cs = st.
Proof.
  intros Hs. induction cs as [| c cs IH]; intros H; [reflexivity |].
  destruct c; cbn [foldl do_call].
  - destruct H as [H | [H | H]]; [| | discriminate H].
    + rewrite generate_throws by auto. apply IH. auto.
    + rewrite generate_throws by auto. apply IH. auto.
  - unfold grow. rewrite Hs. apply IH.
    destruct H as [H | [H | H]]; auto.
Qed.
End Unstarted.

(** X17.  A model on which [generate()] has not succeeded stays as
    [buildModel] left it: with a [seedCount] that is negative or not
    below 2^32 every [generate()] throws a [RangeError], and then, or
    when [generate()] is not called at all, every [grow()] throws a
    [TypeError]; whatever the calls, no variable is written, [isActive()]
    is false and [forEachLineUntilTrue] visits nothing. *)
Theorem unstarted_model_stays_empty `{N : JSNum} {T : JSMath N}
    (canvas : Canvas) (config : Config) (seed : Z) (cs : list call) :
  seedCount config < 0 \/ 4294967296 <= seedCount config \/ generate_calls cs = 0%nat ->
  let st := after_calls canvas config seed cs in
  st = buildModel seed
  /\ grow canvas config st = Throw TypeError
  /\ (seedCount config < 0 \/ 4294967296 <= seedCount config ->
      generate canvas config st = Throw RangeError)
  /\ isActive st = false
  /\ forall (V : Type) (fn : Obj -> Config -> V -> jsval * V) (v : V),
       forEachLineUntilTrue config st fn v = (undefined, v).
Proof.
  intros H st.
  assert (E : st = buildModel seed).
  { unfold st, after_calls. apply calls_unstarted; [reflexivity | exact H]. }
  rewrite E. split; [reflexivity |]. split; [reflexivity |].
  split; [intros H'; apply generate_throws; tauto |].
  split; reflexivity.
Qed.

Lemma unstarted_model_stays_empty_witness :
  let config := {| seedCount := 4294967296; pBifurcation := 0.5%float;
                   expiryThreshold := 0%float |} in
  after_calls demo_canvas config 1 [call_grow; call_generate; call_grow] = buildModel 1
  /\ grow demo_canvas config (buildModel 1) = Throw TypeError.
Proof.
  intros config.
  destruct (unstarted_model_stays_empty demo_canvas config 1
              [call_grow; call_generate; call_grow]) as (E & G & _).
  - right. left. simpl. lia.
  - split; [exact E |]. rewrite E in G. exact G.
Defined.

(** ** The render loop *)

Section RenderFacts.
Context `{N : JSNum} {T : JSMath N}.
Variable canvas : Canvas.

(** A visitor that only appends to a log and returns no value is called
    on every line. *)
Lemma traversal_appends {E : Type} (c : Config) (st : State) (f : Obj -> E) (log : list E) :
  (forEachLineUntilTrue c st (fun o _ l => (undefined, l ++ [f o])) log).2 =
  log ++ map f (all_objs (forest st)).
Proof.
  rewrite forEachLineUntilTrue_flat. cbn [snd]. unfold array_some.
  generalize (all_objs (forest st)) 0%nat. intros os. revert log.
  induction os as [| o os IH]; intros log i; simpl.
  - rewrite app_nil_r. reflexivity.
  - rewrite IH, <- app_assoc. reflexivity.
Qed.

Lemma clears_app (a b : list CanvasCall) : clears (a ++ b) = (clears a + clears b)%nat.
Proof.
  induction a as [| c a IH]; [reflexivity |].
  destruct c; cbn [app clears]; rewrite IH; reflexivity.
Qed.

Lemma clears_frame_calls (rc : RandomConfig.t) (ss : list Seed.t) :
  clears (frame_calls rc ss) = 1%nat.
Proof.
  unfold frame_calls. cbn [clears]. rewrite clears_app.
  assert (Z1 : forall (f : Obj -> CanvasCall) (os : list Obj),
            (forall o, f o <> call_clear) -> clears (map f os) = 0%nat).
  { intros f os Hf. induction os as [| o os IHo]; [reflexivity |].
    cbn [map clears]. specialize (Hf o).
    destruct (f o); [contradiction | exact IHo | exact IHo]. }
  rewrite !Z1 by (intros o; discriminate). reflexivity.
Qed.

Lemma update_spec (r : Render.t) :
  is_Some (seeds (Render.model r)) ->
  exists st,
    grow canvas (RandomConfig.growth (Render.config r)) (Render.model r) = Ok st
    /\ update canvas r =
       Ok (negb (isActive st),
           Render.mk _ st (Render.config r) (Render.stopRequested r) (Render.scheduled r)
             (Render.finished r)
             (Render.canvasCalls r ++
              if isActive st then frame_calls (Render.config r) (forest st) else [])).
Proof.
  intros [ss Hs]. unfold update. cbv zeta.
  destruct (grow canvas (RandomConfig.growth (Render.config r)) (Render.model r))
    as [st | e] eqn:Eg.
  - exists st. split; [reflexivity |].
    destruct (isActive st); cbn [negb].
    + unfold drawRectVisitor, drawLineVisitor, frame_calls.
      rewrite (traversal_appends _ st call_drawLine).
      rewrite (traversal_appends _ st
                 (fun line => call_drawRect line
                    (Math_min (RandomConfig.maxRectWidth (Render.config r))
                       (of_Z (Z.of_nat (Line.steps line.2))))
                    (RandomConfig.useGradients (Render.config r)))).
      rewrite <- !app_assoc. reflexivity.
    + rewrite app_nil_r. reflexivity.
  - unfold grow in Eg. rewrite Hs in Eg. discriminate Eg.
Qed.

Lemma doUpdate_active (r : Render.t) (st : State) :
  grow canvas (RandomConfig.growth (Render.config r)) (Render.model r) = Ok st ->
  Render.stopRequested r = false -> isActive st = true ->
  doUpdate canvas r =
  Ok (Render.mk _ st (Render.config r) false (S (Render.scheduled r)) (Render.finished r)
        (Render.canvasCalls r ++ frame_calls (Render.config r) (forest st))).
Proof.
  intros Hg Hs Ha.
  destruct (update_spec r) as (st0 & Hg0 & Hu).
  { unfold grow in Hg. destruct (seeds (Render.model r)); [eauto | discriminate]. }
  rewrite Hg in Hg0. apply Ok_inj in Hg0. subst st0.
  unfold doUpdate. rewrite Hu, Ha. cbn [negb Render.stopRequested]. rewrite Hs. reflexivity.
Qed.

Lemma doUpdate_complete (r : Render.t) (st : State) :
  grow canvas (RandomConfig.growth (Render.config r)) (Render.model r) = Ok st ->
  Render.stopRequested r = false -> isActive st = false ->
  doUpdate canvas r =
  Ok (Render.mk _ st (Render.config r) false (Render.scheduled r) (S (Render.finished r))
        (Render.canvasCalls r)).
Proof.
  intros Hg Hs Ha.
  destruct (update_spec r) as (st0 & Hg0 & Hu).
  { unfold grow in Hg. destruct (seeds (Render.model r)); [eauto | discriminate]. }
  rewrite Hg in Hg0. apply Ok_inj in Hg0. subst st0.
  unfold doUpdate. rewrite Hu, Ha. cbn [negb Render.stopRequested]. rewrite Hs.
  rewrite app_nil_r. reflexivity.
Qed.

Lemma doUpdate_stopped (r : Render.t) :
  is_Some (seeds (Render.model r)) ->
  Render.stopRequested r = true ->
  exists st,
    grow canvas (RandomConfig.growth (Render.config r)) (Render.model r) = Ok st
    /\ doUpdate canvas r =
       Ok (Render.mk _ st (Render.config r) false (Render.scheduled r) (Render.finished r)
             (Render.canvasCalls r ++
              if isActive st then frame_calls (Render.config r) (forest st) else [])).
Proof.
  intros Hsome Hs. destruct (update_spec r Hsome) as (st & Hg & Hu).
  exists st. split; [exact Hg |].
  unfold doUpdate. rewrite Hu. cbn [Render.stopRequested]. rewrite Hs. reflexivity.
Qed.

Lemma loop_completes (k : nat) :
  forall (r : Render.t) (st' : State),
    Render.stopRequested r = false -> Render.scheduled r = 0%nat ->
    grows canvas (RandomConfig.growth (Render.config r)) (S k) (Render.model r) = Ok st' ->
    isActive st' = false ->
    (forall i sti, (1 <= i <= k)%nat ->
       grows canvas (RandomConfig.growth (Render.config r)) i (Render.model r) = Ok sti ->
       isActive sti = true) ->
    exists r1 r' calls,
      start canvas r = Ok r1
      /\ animationFrames canvas k r1 = Ok r'
      /\ r' = Render.mk _ st' (Render.config r) false 0 (S (Render.finished r)) calls
      /\ clears calls = (clears (Render.canvasCalls r) + k)%nat.
Proof.
  induction k as [| k IH]; intros r st' Hs Hn Hg Hi Hact.
  - simpl in Hg.
    destruct (grow canvas (RandomConfig.growth (Render.config r)) (Render.model r))
      as [st1 |] eqn:Eg; [| discriminate].
    apply Ok_inj in Hg. subst st1.
    eexists _, _, _. unfold start. rewrite (doUpdate_complete r st' Eg Hs Hi).
    split; [reflexivity |]. split; [reflexivity |]. rewrite Hn.
    split; [reflexivity |]. lia.
  - change (grows canvas (RandomConfig.growth (Render.config r)) (S (S k)) (Render.model r))
      with (match grow canvas (RandomConfig.growth (Render.config r)) (Render.model r) with
            | Ok st1 => grows canvas (RandomConfig.growth (Render.config r)) (S k) st1
            | Throw e => Throw e
            end) in Hg.
    destruct (grow canvas (RandomConfig.growth (Render.config r)) (Render.model r))
      as [st1 |] eqn:Eg; [| discriminate].
    assert (Ha1 : isActive st1 = true).
    { apply (Hact 1%nat st1); [lia |]. simpl. rewrite Eg. reflexivity. }
    unfold start. rewrite (doUpdate_active r st1 Eg Hs Ha1). rewrite Hn.
    set (r2 := Render.mk _ st1 (Render.config r) false 0 (Render.finished r)
                 (Render.canvasCalls r ++ frame_calls (Render.config r) (forest st1))).
    destruct (IH r2 st') as (r3 & r' & calls & H1 & H2 & H3 & H4);
      [reflexivity | reflexivity | exact Hg | exact Hi | |].
    { intros i sti Hi' Hgi. apply (Hact (S i) sti); [lia |].
      simpl. rewrite Eg. exact Hgi. }
    eexists _, r', calls. split; [reflexivity |].
    split; [| split; [exact H3 |]].
    + cbn [animationFrames animationFrame Render.scheduled Render.model Render.config
           Render.stopRequested Render.finished Render.canvasCalls].
      fold r2. unfold start in H1. rewrite H1. exact H2.
    + rewrite H4. unfold r2. cbn [Render.canvasCalls].
      rewrite clears_app, clears_frame_calls. lia.
Qed.
End RenderFacts.

(** X18.  [update()] on a generated model never fails.  It makes one
    tick; when the model is still active afterwards it clears the
    canvas, calls [drawRect] on every line of the forest, seeds and
    lines in creation order, with the width [Math.min(maxRectWidth,
    steps)], then [drawLine] on every line in the same order, and
    returns false; when the model is no longer active it draws nothing,
    so that the state the last tick leaves is never drawn, and returns
    true.  It writes no other variable of the render. *)
Theorem update_draws_every_line `{N : JSNum} {T : JSMath N}
    (canvas : Canvas) (r : Render.t) :
  is_Some (seeds (Render.model r)) ->
  exists st,
    grow canvas (RandomConfig.growth (Render.config r)) (Render.model r) = Ok st
    /\ update canvas r =
       Ok (negb (isActive st),
           Render.mk _ st (Render.config r) (Render.stopRequested r) (Render.scheduled r)
             (Render.finished r)
             (Render.canvasCalls r ++
              if isActive st then frame_calls (Render.config r) (forest st) else [])).
Proof. apply update_spec. Qed.

Lemma update_draws_every_line_witness :
  exists st,
    grow small_canvas (RandomConfig.growth (Render.config small_render))
      (Render.model small_render) = Ok st
    /\ update small_canvas small_render =
       Ok (negb (isActive st),
           Render.mk _ st (Render.config small_render) (Render.stopRequested small_render)
             (Render.scheduled small_render) (Render.finished small_render)
             (Render.canvasCalls small_render ++
              if isActive st
              then frame_calls (Render.config small_render) (forest st) else [])).
Proof.
  apply (update_draws_every_line small_canvas small_render).
  vm_compute. eauto.
Defined.

(** X19.  The loop runs to completion: when no stop is requested, no
    callback is pending, and the model is active after each of the
    first [k] ticks and inactive after the next one, [start()] followed
    by [k] animation frames makes exactly those [k + 1] ticks, draws
    [k] frames, calls [onFinished] exactly once and leaves no callback
    pending. *)
Theorem loop_runs_to_completion `{N : JSNum} {T : JSMath N}
    (canvas : Canvas) (k : nat) (r : Render.t) (st' : State) :
  Render.stopRequested r = false -> Render.scheduled r = 0%nat ->
  grows canvas (RandomConfig.growth (Render.config r)) (S k) (Render.model r) = Ok st' ->
  isActive st' = false ->
  (forall i sti, (1 <= i <= k)%nat ->
     grows canvas (RandomConfig.growth (Render.config r)) i (Render.model r) = Ok sti ->
     isActive sti = true) ->
  exists r1 r' calls,
    start canvas r = Ok r1
    /\ animationFrames canvas k r1 = Ok r'
    /\ r' = Render.mk _ st' (Render.config r) false 0 (S (Render.finished r)) calls
    /\ clears calls = (clears (Render.canvasCalls r) + k)%nat.
Proof. apply loop_completes. Qed.

Lemma loop_runs_to_completion_witness :
  exists r1 r' calls,
    start small_canvas small_render = Ok r1
    /\ animationFrames small_canvas 2 r1 = Ok r'
    /\ r' = Render.mk _ small_final (Render.config small_render) false 0
              (S (Render.finished small_render)) calls
    /\ clears calls = (clears (Render.canvasCalls small_render) + 2)%nat.
Proof.
  apply (loop_runs_to_completion small_canvas 2 small_render small_final).
  - vm_compute. reflexivity.
  - vm_compute. reflexivity.
  - vm_compute. reflexivity.
  - vm_compute. reflexivity.
  - intros i sti Hi Hg.
    assert (E : match grows small_canvas (RandomConfig.growth (Render.config small_render)) i
                        (Render.model small_render) with
                | Ok s => isActive s
                | Throw _ => true
                end = true).
    { assert (Hc : i = 1%nat \/ i = 2%nat) by lia.
      destruct Hc as [-> | ->]; vm_compute; reflexivity. }
    rewrite Hg in E. exact E.
Defined.

(** X20.  A stop request is read after the update, not before: with a
    callback pending, the animation frame after [stop()] still makes one
    tick (and draws, if the model is active), then clears the flag and
    ends the loop without calling [onFinished], whether or not the model
    has finished.  With no callback pending the flag stays set, and the
    next [start()] makes one tick, clears the flag and ends in the same
    way, scheduling nothing. *)
Theorem stop_takes_one_more_update `{N : JSNum} {T : JSMath N}
    (canvas : Canvas) (r : Render.t) :
  is_Some (seeds (Render.model r)) ->
  exists st,
    grow canvas (RandomConfig.growth (Render.config r)) (Render.model r) = Ok st
    /\ (forall n, Render.scheduled r = S n ->
        animationFrame canvas (stop r) =
        Ok (Render.mk _ st (Render.config r) false n (Render.finished r)
              (Render.canvasCalls r ++
               if isActive st then frame_calls (Render.config r) (forest st) else [])))
    /\ start canvas (stop r) =
       Ok (Render.mk _ st (Render.config r) false (Render.scheduled r) (Render.finished r)
             (Render.canvasCalls r ++
              if isActive st then frame_calls (Render.config r) (forest st) else [])).
Proof.
  intros Hs.
  destruct (doUpdate_stopped canvas (stop r) Hs eq_refl) as (st & Hg & Hd).
  exists st. split; [exact Hg |]. split; [| exact Hd].
  intros n Hn. unfold animationFrame. cbn [stop Render.scheduled]. rewrite Hn.
  destruct (doUpdate_stopped canvas
              (Render.mk _ (Render.model r) (Render.config r) true n (Render.finished r)
                 (Render.canvasCalls r)) Hs eq_refl) as (st2 & Hg2 & Hd2).
  cbn [Render.model Render.config Render.scheduled Render.finished Render.canvasCalls
       Render.stopRequested stop] in *.
  rewrite Hg in Hg2. apply Ok_inj in Hg2. subst st2. exact Hd2.
Qed.

Lemma stop_takes_one_more_update_witness :
  exists st,
    grow small_canvas (RandomConfig.growth (Render.config small_render))
      (Render.model small_render) = Ok st
    /\ start small_canvas (stop small_render) =
       Ok (Render.mk _ st (Render.config small_render) false
             (Render.scheduled small_render) (Render.finished small_render)
             (Render.canvasCalls small_render ++
              if isActive st
              then frame_calls (Render.config small_render) (forest st) else [])).
Proof.
  destruct (stop_takes_one_more_update small_canvas small_render) as (st & Hg & _ & Hs).
  - vm_compute. eauto.
  - exists st. split; [exact Hg | exact Hs].
Defined.
